(** * signaltest.py: the DI/MACD signal rule and the back-test loop

    A shallow embedding of [evaluate_signals] and [run_simulation] of
    [src/signaltest.py], and the properties of the engine proved over it.

    Modelling conventions.
    - A pandas [float64] cell is an exact rational ([Q]); a cell that may
      hold NaN is an [option Q], [None] standing for NaN.  Rounding is not
      modelled.  [Close] is a plain [Q]: the engine is only run on bars that
      carry a close price.  Floor division [a // b] is [Qfloor (a / b)],
      which is what Python computes for every non-zero [b].
    - A [DataFrame] is the list of its rows, in positional order; the index
      label of a row is its [Date] (a pandas [Timestamp] is a count of
      nanoseconds, an integer).
    - The running variables of [run_simulation] are the fields of the
      record [Sim], threaded through the loop body; the frame is one of
      them, since the loop writes to it.
    - A Python exception is a [Raise] in the [result] monad.
    - [main] is modelled from the list of tickers on: what
      [download_stock_data] and [calculate_indicators] yield for a ticker is
      a parameter, and of [plot_signals] the series handed to matplotlib are
      kept.  Files and printing are not modelled. *)

From Stdlib Require Import ZArith QArith Qround Lia Lqa.
From stdpp Require Import base list sorting strings.

Local Open Scope Q_scope.

(** ** Exceptions *)

Inductive exn : Set := TypeError | KeyError | IndexError.

Inductive result (A : Type) : Type :=
| Ok (a : A)
| Raise (e : exn).

Arguments Ok {A} a.
Arguments Raise {A} e.

Definition bind {A B : Type} (m : result A) (k : A -> result B) : result B :=
  match m with
  | Ok a => k a
  | Raise e => Raise e
  end.

Notation "'let*' x ':=' m 'in' k" := (bind m (fun x => k))
  (at level 10, x name, m at level 100, k at level 200).

(** ** The data frame *)

Inductive Action : Set := Buy | Sell.

Definition Action_eqb (a b : Action) : bool :=
  match a, b with
  | Buy, Buy | Sell, Sell => true
  | _, _ => false
  end.

(** The columns a downloaded bar carries once [calculate_indicators] has run,
    restricted to those the engine reads. *)
Record Bar : Set := mkBar {
  Date : Z;
  Close : Q;
  MACD : option Q;
  MACDSignal : option Q;
  PLUS_DI : option Q;
  MINUS_DI : option Q
}.

(** A row of the frame: the bar and the columns the program adds. *)
Record Row : Set := mkRow {
  bar : Bar;
  Buy_Signal : Z;
  Sell_Signal : Z;
  Portfolio_Value : Q;
  Buy_Condition : bool;
  Sell_Condition : bool
}.

Abbreviation DataFrame := (list Row).

(** [initialize_columns]: the three columns are created, filled with 0.  The
    two condition columns do not exist yet; [false] holds their place until
    [evaluate_signals] writes them. *)
Definition initialize_columns (bars : list Bar) : DataFrame :=
  (fun b => mkRow b 0 0 0 false false) <$> bars.

(** ** evaluate_signals *)

(** [x > y] on floats. *)
Definition Qgtb (x y : Q) : bool := negb (Qle_bool x y).

(** Elementwise [a > b] of two columns: a comparison with NaN is [False]. *)
Definition gt (a b : option Q) : bool :=
  match a, b with
  | Some x, Some y => Qgtb x y
  | _, _ => false
  end.

(** Elementwise [a < b]. *)
Definition lt (a b : option Q) : bool := gt b a.

Definition signal_row (r : Row) : Row :=
  let b := bar r in
  {| bar := b;
     Buy_Signal := Buy_Signal r;
     Sell_Signal := Sell_Signal r;
     Portfolio_Value := Portfolio_Value r;
     Buy_Condition :=
       gt (PLUS_DI b) (MINUS_DI b) && gt (MACD b) (MACDSignal b);
     Sell_Condition :=
       gt (MINUS_DI b) (PLUS_DI b) && lt (MACD b) (MACDSignal b) |}.

Definition evaluate_signals (data : DataFrame) : DataFrame :=
  signal_row <$> data.

(** What [main] hands to [run_simulation]. *)
Definition prepare (bars : list Bar) : DataFrame :=
  evaluate_signals (initialize_columns bars).

(** ** pandas and builtins used by run_simulation *)

(** [data.index]: the labels of the rows. *)
Definition index (data : DataFrame) : list Z :=
  (fun r => Date (bar r)) <$> data.

(** [data[col].first_valid_index()]: the label of the first row whose cell
    is not NaN, [None] when there is none. *)
Definition first_valid_index (col : Bar -> option Q) (data : DataFrame)
  : option Z :=
  (fun p => Date (bar p.2)) <$> list_find (fun r => is_Some (col (bar r))) data.

(** [max(a, b)] on two labels: [a] unless [b > a]; comparing with [None]
    raises. *)
Definition py_max (a b : option Z) : result Z :=
  match a, b with
  | Some x, Some y => Ok (if (x <? y)%Z then y else x)
  | _, _ => Raise TypeError
  end.

(** The positions of a label in the index, counted from [i]. *)
Fixpoint positions (label : Z) (data : DataFrame) (i : nat) : list nat :=
  match data with
  | [] => []
  | r :: rest =>
      if (Date (bar r) =? label)%Z
      then i :: positions label rest (S i)
      else positions label rest (S i)
  end.

(** What [Index.get_loc] returns: an integer when the label occurs once, a
    slice or a mask when it occurs several times. *)
Inductive loc : Set :=
| LocInt (i : nat)
| LocMany (ps : list nat).

Definition get_loc (data : DataFrame) (label : Z) : result loc :=
  match positions label data 0 with
  | [] => Raise KeyError
  | [i] => Ok (LocInt i)
  | ps => Ok (LocMany ps)
  end.

(** [range(start, stop)] wants an integer. *)
Definition range_start (l : loc) : result nat :=
  match l with
  | LocInt i => Ok i
  | LocMany _ => Raise TypeError
  end.

(** [data[col].iloc[i]] for [0 <= i]. *)
Definition iloc (data : DataFrame) (i : nat) : result Row :=
  match data !! i with
  | Some r => Ok r
  | None => Raise IndexError
  end.

(** [data.at[label, col] = v]: every row carrying the label is written. *)
Definition at_set (label : Z) (f : Row -> Row) (data : DataFrame) : DataFrame :=
  (fun r => if (Date (bar r) =? label)%Z then f r else r) <$> data.

Definition set_Buy_Signal (v : Z) (r : Row) : Row :=
  mkRow (bar r) v (Sell_Signal r) (Portfolio_Value r)
        (Buy_Condition r) (Sell_Condition r).

Definition set_Sell_Signal (v : Z) (r : Row) : Row :=
  mkRow (bar r) (Buy_Signal r) v (Portfolio_Value r)
        (Buy_Condition r) (Sell_Condition r).

Definition set_Portfolio_Value (v : Q) (r : Row) : Row :=
  mkRow (bar r) (Buy_Signal r) (Sell_Signal r) v
        (Buy_Condition r) (Sell_Condition r).

(** ** run_simulation *)

(** One line of the journal:
    [[Date, Action, Price, Quantity, Cash, Portfolio_Value]]. *)
Record Transaction : Set := mkTransaction {
  tDate : Z;
  tAction : Action;
  tPrice : Q;
  tQuantity : Z;
  tCash : Q;
  tPortfolio_Value : Q
}.

(** The local variables of [run_simulation], and the frame it writes to. *)
Record Sim : Set := mkSim {
  cash : Q;
  stock_quantity : Z;
  transactions : list Transaction;
  last_action : option Action;
  total_trades : nat;
  successful_trades : nat;
  last_buy_price : Q;
  data : DataFrame
}.

(** Lines 32-38. *)
Definition init (frame : DataFrame) (initial_cash : Q) : Sim :=
  {| cash := initial_cash;
     stock_quantity := 0;
     transactions := [];
     last_action := None;
     total_trades := 0;
     successful_trades := 0;
     last_buy_price := 0;
     data := frame |}.

(** [last_action != a]. *)
Definition last_action_ne (l : option Action) (a : Action) : bool :=
  match l with
  | Some b => negb (Action_eqb b a)
  | None => true
  end.

(** Lines 41-43. *)
Definition start_index (frame : DataFrame) : result loc :=
  let* label := py_max (first_valid_index MINUS_DI frame)
                  (first_valid_index PLUS_DI frame) in
  get_loc frame label.

(** The guard of line 48 and the guard of line 56. *)
Definition buy_trigger (r : Row) (s : Sim) : bool :=
  Buy_Condition r && Qgtb (cash s) 0 && last_action_ne (last_action s) Buy.

Definition sell_trigger (r : Row) (s : Sim) : bool :=
  Sell_Condition r && (0 <? stock_quantity s)%Z
  && last_action_ne (last_action s) Sell.

(** Lines 49-54. *)
Definition do_buy (r : Row) (s : Sim) : Sim :=
  let close_price := Close (bar r) in
  let stock_quantity' := Qfloor (cash s / close_price) in
  let cash' := cash s - inject_Z stock_quantity' * close_price in
  {| cash := cash';
     stock_quantity := stock_quantity';
     transactions :=
       transactions s ++
       [mkTransaction (Date (bar r)) Buy close_price stock_quantity' cash'
                      (cash' + inject_Z stock_quantity' * close_price)];
     last_action := Some Buy;
     total_trades := total_trades s;
     successful_trades := successful_trades s;
     last_buy_price := close_price;
     data := at_set (Date (bar r)) (set_Buy_Signal 1) (data s) |}.

(** Lines 57-65. *)
Definition do_sell (r : Row) (s : Sim) : Sim :=
  let close_price := Close (bar r) in
  let cash' := cash s + inject_Z (stock_quantity s) * close_price in
  {| cash := cash';
     stock_quantity := 0;
     transactions :=
       transactions s ++
       [mkTransaction (Date (bar r)) Sell close_price 0 cash' cash'];
     last_action := Some Sell;
     total_trades := S (total_trades s);
     successful_trades :=
       if Qgtb close_price (last_buy_price s)
       then S (successful_trades s)
       else successful_trades s;
     last_buy_price := last_buy_price s;
     data := at_set (Date (bar r)) (set_Sell_Signal 1) (data s) |}.

(** Line 67. *)
Definition mark_value (r : Row) (s : Sim) : Sim :=
  let close_price := Close (bar r) in
  {| cash := cash s;
     stock_quantity := stock_quantity s;
     transactions := transactions s;
     last_action := last_action s;
     total_trades := total_trades s;
     successful_trades := successful_trades s;
     last_buy_price := last_buy_price s;
     data :=
       at_set (Date (bar r))
              (set_Portfolio_Value
                 (cash s + inject_Z (stock_quantity s) * close_price))
              (data s) |}.

(** The branch of lines 48-65, before the value is marked. *)
Definition trade (r : Row) (s : Sim) : Sim :=
  if buy_trigger r s then do_buy r s
  else if sell_trigger r s then do_sell r s
  else s.

(** The loop body, lines 46-67, at position [i]. *)
Definition body (i : nat) (s : Sim) : result Sim :=
  let* r := iloc (data s) i in
  Ok (mark_value r (trade r s)).

(** [for i in range(start, start + n): body]. *)
Fixpoint for_range (start n : nat) (s : Sim) : result Sim :=
  match n with
  | O => Ok s
  | S n' => let* s' := body start s in for_range (S start) n' s'
  end.

Definition run_simulation (frame : DataFrame) (initial_cash : Q) : result Sim :=
  let* l := start_index frame in
  let* start := range_start l in
  for_range start (length frame - start) (init frame initial_cash).

(** The three values of the [return] statement: the journal and the two
    counters. *)
Definition returned (s : Sim) : list Transaction * nat * nat :=
  (transactions s, total_trades s, successful_trades s).

(** The state of [run_simulation] once the first [k] bars of its loop are
    processed (all of them when [k] exceeds their number). *)
Definition simulation_after (frame : DataFrame) (initial_cash : Q) (k : nat)
  : result Sim :=
  let* l := start_index frame in
  let* start := range_start l in
  for_range start (min k (length frame - start)) (init frame initial_cash).

(** ** Predicates of the statements *)

(** The loop writes [Buy_Signal], [Sell_Signal] and [Portfolio_Value] only:
    what it reads of a row, its [fixed] part, never changes. *)
Definition fixed (r : Row) : Bar * bool * bool :=
  (bar r, Buy_Condition r, Sell_Condition r).

(** No record of the journal has the action of the record before it. *)
Definition alternates (j : list Transaction) : Prop :=
  forall i t u, j !! i = Some t -> j !! S i = Some u -> tAction t <> tAction u.

(** Between two records of one action lies a record of the other. *)
Definition interleaved (j : list Transaction) : Prop :=
  forall i k t u,
    (i < k)%nat -> j !! i = Some t -> j !! k = Some u ->
    tAction t = tAction u ->
    exists m v, (i < m < k)%nat /\ j !! m = Some v /\ tAction v <> tAction t.

(** What the loop keeps true of the journal: the last action is the action
    of the last record; the records alternate; the journal starts with a Buy,
    and as long as it is empty no share is held. *)
Definition journal_inv (s : Sim) : Prop :=
  last_action s = tAction <$> last (transactions s) /\
  alternates (transactions s) /\
  match transactions s with
  | [] => stock_quantity s = 0%Z
  | t :: _ => tAction t = Buy
  end.

Definition nonnegative (s : Sim) : Prop :=
  0 <= cash s /\ (0 <= stock_quantity s)%Z.

Definition nothing_recorded (s : Sim) : Prop :=
  transactions s = [] /\ total_trades s = 0%nat /\ successful_trades s = 0%nat.

(** A column is undefined on a leading run of bars only: once defined, it
    stays defined. *)
Definition warm_up (col : Bar -> option Q) (frame : DataFrame) : Prop :=
  forall i j r r',
    (i <= j)%nat -> frame !! i = Some r -> frame !! j = Some r' ->
    is_Some (col (bar r)) -> is_Some (col (bar r')).

Definition all_defined (b : Bar) : Prop :=
  is_Some (PLUS_DI b) /\ is_Some (MINUS_DI b) /\
  is_Some (MACD b) /\ is_Some (MACDSignal b).

(** ** A run to evaluate *)

(** The bars of examples 1 and 2 of the specification: a bar at price 100
    whose indicators say buy, then a bar at price 110 whose indicators say
    sell. *)
Definition example_bars : list Bar :=
  [ mkBar 1 100 (Some 2) (Some 1) (Some 30) (Some 20);
    mkBar 2 110 (Some 1) (Some 2) (Some 20) (Some 30) ].

(** The state of the run on [example_bars] with 1000 in cash, once the first
    bar is processed. *)
Definition example_after_buy : Sim :=
  Eval vm_compute in
    match for_range 0 1 (init (prepare example_bars) 1000) with
    | Ok s => s
    | Raise _ => init [] 0
    end.

(** Bars whose indicators say buy three times, sell twice, then buy
    again. *)
Definition debounce_bars : list Bar :=
  [ mkBar 1 100 (Some 2) (Some 1) (Some 30) (Some 20);
    mkBar 2 101 (Some 2) (Some 1) (Some 30) (Some 20);
    mkBar 3 102 (Some 2) (Some 1) (Some 30) (Some 20);
    mkBar 4 110 (Some 1) (Some 2) (Some 20) (Some 30);
    mkBar 5 108 (Some 1) (Some 2) (Some 20) (Some 30);
    mkBar 6 105 (Some 2) (Some 1) (Some 30) (Some 20) ].

(** The state [run_simulation] returns on [debounce_bars] with 1000 in
    cash. *)
Definition debounce_final : Sim :=
  Eval vm_compute in
    match run_simulation (prepare debounce_bars) 1000 with
    | Ok s => s
    | Raise _ => init [] 0
    end.

(** Bars short of the MACD warm-up, and bars short of every warm-up. *)
Definition short_bars : list Bar :=
  [ mkBar 1 100 None None None None;
    mkBar 2 101 None None (Some 30) (Some 20);
    mkBar 3 102 None None (Some 31) (Some 19) ].

Definition shorter_bars : list Bar :=
  [ mkBar 1 100 None None None None;
    mkBar 2 101 None None None None ].

(** ** plot_signals *)

(** What [plot_signals] hands to matplotlib: the close line and the two
    scatter series, each a list of (date, close) points.  The file the
    figure is saved to is kept by the caller, under the ticker. *)
Record Figure : Set := mkFigure {
  close_line : list (Z * Q);
  buy_scatter : list (Z * Q);
  sell_scatter : list (Z * Q)
}.

Definition point (r : Row) : Z * Q := (Date (bar r), Close (bar r)).

(** Lines 73-77: [data[data['Buy_Signal'] == 1]] keeps the rows whose signal
    is 1. *)
Definition plot_signals (data : DataFrame) : Figure :=
  {| close_line := point <$> data;
     buy_scatter := point <$> filter (fun r => Buy_Signal r = 1%Z) data;
     sell_scatter := point <$> filter (fun r => Sell_Signal r = 1%Z) data |}.

(** ** main *)

(** A Python [dict] with string keys, in insertion order: assigning to a key
    already there replaces its value in place, assigning to a new key
    appends. *)
Fixpoint dict_set {V : Type} (k : string) (v : V) (d : list (string * V))
  : list (string * V) :=
  match d with
  | [] => [(k, v)]
  | (k', v') :: rest =>
      if String.eqb k' k then (k', v) :: rest
      else (k', v') :: dict_set k v rest
  end.

Fixpoint dict_get {V : Type} (k : string) (d : list (string * V)) : option V :=
  match d with
  | [] => None
  | (k', v') :: rest => if String.eqb k' k then Some v' else dict_get k rest
  end.

(** [x / y] on two [float64] of numpy: no exception; [None] stands for the
    non-finite value (inf or NaN) a zero divisor gives. *)
Definition float_div (x y : Q) : option Q :=
  if Qeq_bool y 0 then None else Some (x / y).

(** The accumulators of [main], lines 100-110, and the figures saved under
    [graphs/]. *)
Record Totals : Type := mkTotals {
  individual_stock_return : list (string * option Q);
  total_portfolio_value : Q;
  transactions_dict : list (string * list Transaction);
  total_trades_all : nat;
  successful_trades_all : nat;
  graphs : list (string * Figure)
}.

Definition no_totals : Totals :=
  {| individual_stock_return := [];
     total_portfolio_value := 0;
     transactions_dict := [];
     total_trades_all := 0;
     successful_trades_all := 0;
     graphs := [] |}.

(** Lines 127-138, once the journal is known to have a first record [t0]
    and a last record [tn]. *)
Definition register (ticker : string) (s : Sim) (t0 tn : Transaction)
    (acc : Totals) : Totals :=
  let initial_stock_value := tPrice t0 * inject_Z (tQuantity t0) in
  let final_stock_value := tPortfolio_Value tn in
  let stock_return_percent :=
    (fun q => q * 100) <$>
      float_div (final_stock_value - initial_stock_value) initial_stock_value in
  {| individual_stock_return :=
       dict_set ticker stock_return_percent (individual_stock_return acc);
     total_portfolio_value := total_portfolio_value acc + tPortfolio_Value tn;
     transactions_dict :=
       dict_set ticker (transactions s) (transactions_dict acc);
     total_trades_all := total_trades_all acc;
     successful_trades_all := successful_trades_all acc;
     graphs := dict_set ticker (plot_signals (data s)) (graphs acc) |}.

(** Lines 124-125. *)
Definition add_trades (s : Sim) (acc : Totals) : Totals :=
  {| individual_stock_return := individual_stock_return acc;
     total_portfolio_value := total_portfolio_value acc;
     transactions_dict := transactions_dict acc;
     total_trades_all := (total_trades_all acc + total_trades s)%nat;
     successful_trades_all :=
       (successful_trades_all acc + successful_trades s)%nat;
     graphs := graphs acc |}.

(** One turn of the loop of lines 112-141.  [market ticker] is what
    [download_stock_data] and [calculate_indicators] yield for the ticker: the
    bars with their indicators, or an exception.  An empty download is
    skipped by [continue]; any exception, also the [IndexError] of
    [.iloc[0]] on an empty journal, is swallowed by [except Exception], which
    leaves standing what was assigned before it. *)
Definition process_ticker (market : string -> result (list Bar))
    (acc : Totals) (ticker : string) : Totals :=
  let initial_cash := 100000 in
  match market ticker with
  | Raise _ => acc
  | Ok [] => acc
  | Ok bars =>
      match run_simulation (prepare bars) initial_cash with
      | Raise _ => acc
      | Ok s =>
          let acc := add_trades s acc in
          match head (transactions s), last (transactions s) with
          | Some t0, Some tn => register ticker s t0 tn acc
          | _, _ => acc
          end
      end
  end.

(** What [main] prints, and what it has written by then. *)
Record Report : Type := mkReport {
  totals : Totals;
  total_return_percent : Q;
  success_rate : Q
}.

Inductive main_result : Type :=
| Done (r : Report)
| ZeroDivisionError.

(** Lines 96-158.  The quotient of line 153 raises when the divisor is the
    integer 0, which it is without tickers; the portfolio value is then the
    integer 0 too, so the division is Python's, not numpy's. *)
Definition main (market : string -> result (list Bar)) (tickers : list string)
  : main_result :=
  let number_of_tickers := length tickers in
  let initial_investment_per_stock := 100000%Z in
  let initial_total_investment :=
    (initial_investment_per_stock * Z.of_nat number_of_tickers)%Z in
  let acc := foldl (process_ticker market) no_totals tickers in
  let success_rate :=
    if (0 <? total_trades_all acc)%nat
    then inject_Z (Z.of_nat (successful_trades_all acc))
         / inject_Z (Z.of_nat (total_trades_all acc)) * 100
    else 0 in
  if (initial_total_investment =? 0)%Z then ZeroDivisionError
  else
    Done {| totals := acc;
            total_return_percent :=
              (total_portfolio_value acc - inject_Z initial_total_investment)
              / inject_Z initial_total_investment * 100;
            success_rate := success_rate |}.

(** ** Measures of a journal *)

(** The number of records of one action. *)
Definition count_action (a : Action) (j : list Transaction) : nat :=
  length (List.filter (fun t => Action_eqb (tAction t) a) j).

(** The cash the most recent Sell of a journal left, the initial cash when
    nothing was sold. *)
Definition settled (initial_cash : Q) (j : list Transaction) : Q :=
  foldl (fun c t => match tAction t with Sell => tCash t | Buy => c end)
        initial_cash j.

(** ** Invariants of the ledger *)

(** Shares are held only after a Buy. *)
Definition position_inv (s : Sim) : Prop :=
  last_action s <> Some Buy -> stock_quantity s = 0%Z.

(** 1 while the last action is a Buy, 0 otherwise. *)
Definition open_position (s : Sim) : nat :=
  match last_action s with
  | Some Buy => 1
  | _ => 0
  end.

Definition counts_inv (s : Sim) : Prop :=
  total_trades s = count_action Sell (transactions s) /\
  (successful_trades s <= total_trades s)%nat /\
  count_action Buy (transactions s) = (total_trades s + open_position s)%nat.

Definition settled_inv (initial_cash : Q) (s : Sim) : Prop :=
  (last_action s <> Some Buy ->
   cash s == settled initial_cash (transactions s)) /\
  forall i t,
    transactions s !! i = Some t ->
    tPortfolio_Value t == settled initial_cash (take (S i) (transactions s)).

Definition ledger_inv (initial_cash : Q) (s : Sim) : Prop :=
  position_inv s /\ counts_inv s /\ settled_inv initial_cash s.

(** ** The journal against the frame *)

(** A record was taken at a bar of the frame, between two positions: it has
    the date and the close price of the bar, and the bar's condition for its
    action holds. *)
Definition recorded_at (frame : DataFrame) (lo hi : nat) (t : Transaction)
  : Prop :=
  exists i r,
    (lo <= i < hi)%nat /\ frame !! i = Some r /\
    tDate t = Date (bar r) /\ tPrice t = Close (bar r) /\
    match tAction t with
    | Buy => Buy_Condition r
    | Sell => Sell_Condition r
    end = true.

Definition trace_inv (frame : DataFrame) (start i : nat) (s : Sim) : Prop :=
  (start <= i)%nat /\
  Forall (recorded_at frame start i) (transactions s) /\
  StronglySorted Z.lt (tDate <$> transactions s).

(** The rows marked 1 in a signal column are those whose date is the date of
    a record of that action. *)
Definition row_marks (j : list Transaction) (r : Row) : Prop :=
  (Buy_Signal r = 1%Z <->
   exists t, t ∈ j /\ tAction t = Buy /\ tDate t = Date (bar r)) /\
  (Sell_Signal r = 1%Z <->
   exists t, t ∈ j /\ tAction t = Sell /\ tDate t = Date (bar r)).

Definition marks (s : Sim) : Prop :=
  Forall (row_marks (transactions s)) (data s).

(** ** The Portfolio_Value column *)

(** The value of the portfolio at the close of a row: line 67. *)
Definition equity (s : Sim) (r : Row) : Q :=
  cash s + inject_Z (stock_quantity s) * Close (bar r).

(** What holds of the frame when the loop, started at [start], is about to
    process position [i]: the state is the one reached after [i - start]
    bars; the rows before [start] and from [i] on are as given; each row in
    between holds the value of the portfolio after its bar. *)
Definition curve_inv (frame : DataFrame) (c : Q) (start i : nat) (s : Sim)
  : Prop :=
  (start <= i)%nat /\
  for_range start (i - start) (init frame c) = Ok s /\
  (forall j, (j < start \/ i <= j)%nat -> data s !! j = frame !! j) /\
  forall k r,
    (start + k < i)%nat ->
    data s !! (start + k)%nat = Some r ->
    exists sk,
      for_range start (S k) (init frame c) = Ok sk /\
      Portfolio_Value r = equity sk r.

(** ** Invariants of main *)

(** A journal as [main] keeps it: not empty, starting with a Buy, and
    alternating. *)
Definition kept_journal (j : list Transaction) : Prop :=
  (exists t, head j = Some t /\ tAction t = Buy) /\ alternates j.

Definition totals_inv (acc : Totals) : Prop :=
  (successful_trades_all acc <= total_trades_all acc)%nat /\
  (individual_stock_return acc).*1 = (transactions_dict acc).*1 /\
  (graphs acc).*1 = (transactions_dict acc).*1 /\
  Forall (fun kv => kept_journal kv.2) (transactions_dict acc).

(** Every record of the journal has a non-negative value. *)
Definition value_inv (s : Sim) : Prop :=
  nonnegative s /\ Forall (fun t => 0 <= tPortfolio_Value t) (transactions s).

(** An entry of [transactions_dict] is, under a ticker of the list, the
    journal of the run on the bars the market gave for that ticker. *)
Definition from_market (market : string -> result (list Bar))
    (tickers : list string) (kv : string * list Transaction) : Prop :=
  kv.1 ∈ tickers /\
  exists bars s,
    market kv.1 = Ok bars /\
    run_simulation (prepare bars) 100000 = Ok s /\
    kv.2 = transactions s.

(** ** A market to evaluate *)

(** Two tickers: one with the bars of [debounce_bars], one whose history is
    too short for any indicator; any other download fails. *)
Definition example_market (ticker : string) : result (list Bar) :=
  if String.eqb ticker "AAA" then Ok debounce_bars
  else if String.eqb ticker "BBB" then Ok shorter_bars
  else Raise KeyError.

Definition example_report : Report :=
  Eval vm_compute in
    match main example_market ["AAA"; "BBB"; "CCC"] with
    | Done rep => rep
    | ZeroDivisionError => mkReport no_totals 0 0
    end.

(** * Properties *)

(** ** Comparisons *)

Lemma Qgtb_true (x y : Q) : Qgtb x y = true <-> y < x.
Proof.
  unfold Qgtb. rewrite negb_true_iff, <- not_true_iff_false, Qle_bool_iff.
  split; [apply Qnot_le_lt | apply Qlt_not_le].
Qed.

Lemma Qgtb_false (x y : Q) : Qgtb x y = false <-> x <= y.
Proof.
  unfold Qgtb. rewrite negb_false_iff. apply Qle_bool_iff.
Qed.

Lemma Qgtb_asym (x y : Q) : Qgtb x y = true -> Qgtb y x = false.
Proof.
  rewrite Qgtb_true, Qgtb_false. apply Qlt_le_weak.
Qed.

Lemma gt_asym (a b : option Q) : gt a b = true -> gt b a = false.
Proof.
  destruct a as [x|], b as [y|]; simpl; try discriminate.
  apply Qgtb_asym.
Qed.

Lemma gt_defined (a b : option Q) : gt a b = true -> is_Some a /\ is_Some b.
Proof.
  destruct a, b; simpl; try discriminate. intros _. split; eauto.
Qed.

(** The two conditions [evaluate_signals] writes on a row exclude each
    other. *)
Lemma signal_row_exclusive (r : Row) :
  Buy_Condition (signal_row r) && Sell_Condition (signal_row r) = false.
Proof.
  simpl. destruct (gt (PLUS_DI (bar r)) (MINUS_DI (bar r))) eqn:E; [|reflexivity].
  rewrite (gt_asym _ _ E). simpl. apply andb_false_r.
Qed.

(** ** The frame under the loop *)

Lemma at_set_fixed (label : Z) (f : Row -> Row) (d : DataFrame) :
  (forall r, fixed (f r) = fixed r) ->
  fixed <$> at_set label f d = fixed <$> d.
Proof.
  intros Hf. unfold at_set. rewrite <- list_fmap_compose.
  apply list_fmap_ext. intros i r _. simpl.
  destruct (Date (bar r) =? label)%Z; auto.
Qed.

Lemma trade_fixed (r : Row) (s : Sim) :
  fixed <$> data (trade r s) = fixed <$> data s.
Proof.
  unfold trade. destruct (buy_trigger r s); [|destruct (sell_trigger r s)];
    simpl; auto using at_set_fixed.
Qed.

Lemma mark_value_fixed (r : Row) (s : Sim) :
  fixed <$> data (mark_value r s) = fixed <$> data s.
Proof. simpl. auto using at_set_fixed. Qed.

Lemma body_Ok (i : nat) (s s' : Sim) :
  body i s = Ok s' ->
  exists r, data s !! i = Some r /\ s' = mark_value r (trade r s).
Proof.
  unfold body, iloc. destruct (data s !! i) as [r|]; simpl; [|discriminate].
  intros [= <-]. eauto.
Qed.

Lemma body_fixed (i : nat) (s s' : Sim) :
  body i s = Ok s' -> fixed <$> data s' = fixed <$> data s.
Proof.
  intros (r & _ & ->)%body_Ok. rewrite mark_value_fixed. apply trade_fixed.
Qed.

Lemma fixed_lookup (d frame : DataFrame) (i : nat) (r : Row) :
  fixed <$> d = fixed <$> frame ->
  d !! i = Some r ->
  exists r0, frame !! i = Some r0 /\ fixed r0 = fixed r.
Proof.
  intros Heq Hi.
  assert (H : (fixed <$> frame) !! i = Some (fixed r))
    by (rewrite <- Heq, list_lookup_fmap, Hi; reflexivity).
  rewrite list_lookup_fmap in H.
  destruct (frame !! i) as [r0|]; simpl in H; [|discriminate].
  exists r0. split; congruence.
Qed.

Lemma fixed_length (d frame : DataFrame) :
  fixed <$> d = fixed <$> frame -> length d = length frame.
Proof.
  intros H. rewrite <- (length_fmap fixed d), H. apply length_fmap.
Qed.

(** ** The loop *)

(** An invariant of the body, possibly relying on what the rows of the
    frame satisfy, holds after any number of iterations. *)
Lemma for_range_invariant (frame : DataFrame) (R : Row -> Prop) (P : Sim -> Prop) :
  (forall r r0, R r0 -> fixed r0 = fixed r -> R r) ->
  Forall R frame ->
  (forall r s, R r -> P s -> P (mark_value r (trade r s))) ->
  forall n start s s',
    fixed <$> data s = fixed <$> frame ->
    P s ->
    for_range start n s = Ok s' ->
    P s' /\ fixed <$> data s' = fixed <$> frame.
Proof.
  intros HR Hall Hstep. induction n as [|n IH]; intros start s s' Hd Hs; simpl.
  - intros [= <-]. auto.
  - destruct (body start s) as [s1|] eqn:Hb; simpl; [|discriminate].
    intros Hrun. apply (IH (S start) s1 s'); auto.
    + rewrite (body_fixed _ _ _ Hb). exact Hd.
    + apply body_Ok in Hb as (r & Hr & ->).
      destruct (fixed_lookup _ _ _ _ Hd Hr) as (r0 & Hr0 & Hfix).
      apply Hstep; auto.
      apply (HR r r0); auto.
      rewrite Forall_lookup in Hall. eauto.
Qed.

(** The loop raises nothing as long as it stays inside the frame. *)
Lemma for_range_total (n start : nat) (s : Sim) :
  (start + n <= length (data s))%nat ->
  exists s', for_range start n s = Ok s'.
Proof.
  revert start s. induction n as [|n IH]; intros start s Hlen; simpl; eauto.
  destruct (lookup_lt_is_Some_2 (data s) start) as [r Hr]; [lia|].
  assert (Hb : body start s = Ok (mark_value r (trade r s)))
    by (unfold body, iloc; rewrite Hr; reflexivity).
  rewrite Hb. simpl. apply IH.
  rewrite (fixed_length _ (data s)); [lia|].
  apply (body_fixed _ _ _ Hb).
Qed.

(** In particular [range(start, len(data))] is run to its end, and so is any
    part of it. *)
Lemma for_range_total_min (k start : nat) (s : Sim) :
  exists s', for_range start (min k (length (data s) - start)) s = Ok s'.
Proof.
  destruct (le_lt_dec start (length (data s))) as [Hle|Hlt].
  - apply for_range_total. lia.
  - replace (min k (length (data s) - start)) with 0%nat by lia.
    simpl. eauto.
Qed.

(** Running [n + m] iterations is running [n], then [m] more. *)
Lemma for_range_add (n m start : nat) (s : Sim) :
  for_range start (n + m) s =
  let* s1 := for_range start n s in for_range (start + n) m s1.
Proof.
  revert start s. induction n as [|n IH]; intros start s; simpl.
  - rewrite Nat.add_0_r. reflexivity.
  - destruct (body start s) as [s1|]; simpl; [|reflexivity].
    rewrite IH. replace (S start + n)%nat with (start + S n)%nat by lia.
    reflexivity.
Qed.

(** ** The signal evaluator *)

(** C5: [evaluate_signals] returns one row for every row of the frame it is
    given, at the same position and with the same bar.  For every bar, when
    plus-DI, minus-DI, MACD and the MACD signal are all defined, the buy
    condition of its row holds exactly when plus-DI > minus-DI and
    MACD > signal, the sell condition exactly when minus-DI > plus-DI and
    MACD < signal; when one of the four is undefined, both conditions are
    false. *)
Theorem evaluate_signals_conditions (frame : DataFrame) (i : nat) (r0 : Row) :
  frame !! i = Some r0 ->
  length (evaluate_signals frame) = length frame /\
  exists r,
    evaluate_signals frame !! i = Some r /\
    bar r = bar r0 /\
    (forall p m c g,
        PLUS_DI (bar r0) = Some p -> MINUS_DI (bar r0) = Some m ->
        MACD (bar r0) = Some c -> MACDSignal (bar r0) = Some g ->
        (Buy_Condition r = true <-> m < p /\ g < c) /\
        (Sell_Condition r = true <-> p < m /\ c < g)) /\
    (PLUS_DI (bar r0) = None \/ MINUS_DI (bar r0) = None \/
     MACD (bar r0) = None \/ MACDSignal (bar r0) = None ->
     Buy_Condition r = false /\ Sell_Condition r = false).
Proof.
  intros Hi. unfold evaluate_signals. split; [apply length_fmap|].
  exists (signal_row r0). rewrite list_lookup_fmap, Hi.
  split; [reflexivity|]. split; [reflexivity|]. split.
  - intros p m c g Hp Hm Hc Hg. unfold lt. simpl. rewrite Hp, Hm, Hc, Hg.
    simpl. rewrite !andb_true_iff, !Qgtb_true. tauto.
  - unfold lt. simpl.
    destruct (PLUS_DI (bar r0)), (MINUS_DI (bar r0)),
             (MACD (bar r0)), (MACDSignal (bar r0));
      intros [H | [H | [H | H]]]; try discriminate H; simpl;
      rewrite ?andb_false_r; auto.
Qed.

Lemma evaluate_signals_conditions_witness :
  let b0 := mkBar 0 100 None None (Some 30) (Some 20) in
  let b1 := mkBar 1 101 (Some 2) (Some 1) (Some 30) (Some 20) in
  let frame := initialize_columns [b0; b1] in
  length (evaluate_signals frame) = 2%nat /\
  (exists r,
      evaluate_signals frame !! 1%nat = Some r /\ bar r = b1 /\
      (Buy_Condition r = true <-> 20 < 30 /\ 1 < 2)) /\
  (exists r,
      evaluate_signals frame !! 0%nat = Some r /\ bar r = b0 /\
      Buy_Condition r = false /\ Sell_Condition r = false).
Proof.
  intros b0 b1 frame.
  destruct (evaluate_signals_conditions frame 1 (mkRow b1 0 0 0 false false)
              eq_refl) as (Hlen & r & Hr & Hbar & Hdef & _).
  destruct (evaluate_signals_conditions frame 0 (mkRow b0 0 0 0 false false)
              eq_refl) as (_ & r' & Hr' & Hbar' & _ & Hundef).
  split; [exact Hlen|]. split.
  - exists r. split; [exact Hr|]. split; [exact Hbar|].
    apply (Hdef 30 20 2 1); reflexivity.
  - exists r'. split; [exact Hr'|]. split; [exact Hbar'|].
    apply Hundef. right. right. left. reflexivity.
Defined.

(** C9: on every row [evaluate_signals] returns, whatever its indicators,
    defined or not, the buy condition and the sell condition are not both
    true. *)
Theorem evaluate_signals_exclusive (frame : DataFrame) :
  Forall (fun r => ~ (Buy_Condition r = true /\ Sell_Condition r = true))
         (evaluate_signals frame).
Proof.
  unfold evaluate_signals. apply Forall_fmap, Forall_true. intros r [Hb Hs].
  pose proof (signal_row_exclusive r) as H. simpl in *.
  rewrite Hb, Hs in H. discriminate.
Qed.

(** ** The ledger *)

Lemma last_action_ne_true (l : option Action) (a : Action) :
  last_action_ne l a = true <-> l <> Some a.
Proof.
  destruct l as [[]|], a; simpl; split; intros H; try congruence; discriminate.
Qed.

Lemma buy_trigger_true (r : Row) (s : Sim) :
  buy_trigger r s = true <->
  Buy_Condition r = true /\ 0 < cash s /\ last_action s <> Some Buy.
Proof.
  unfold buy_trigger.
  rewrite !andb_true_iff, Qgtb_true, last_action_ne_true. tauto.
Qed.

Lemma sell_trigger_true (r : Row) (s : Sim) :
  sell_trigger r s = true <->
  Sell_Condition r = true /\ (0 < stock_quantity s)%Z /\
  last_action s <> Some Sell.
Proof.
  unfold sell_trigger.
  rewrite !andb_true_iff, Z.ltb_lt, last_action_ne_true. tauto.
Qed.

Lemma body_lookup (i : nat) (s : Sim) (r : Row) :
  data s !! i = Some r -> body i s = Ok (mark_value r (trade r s)).
Proof. intros H. unfold body, iloc. rewrite H. reflexivity. Qed.

(** C7: at a bar with close price [P] where the buy guard of line 48 holds
    with cash [C], the body sets the quantity to floor(C / P) and the cash
    to C - quantity * P, appends the record (Buy, P, quantity, cash,
    cash + quantity * P) to the journal, and sets the last buy price to [P]
    and the last action to Buy. *)
Theorem buy_step (i : nat) (s : Sim) (r : Row) :
  data s !! i = Some r ->
  Buy_Condition r = true ->
  0 < cash s ->
  last_action s <> Some Buy ->
  let P := Close (bar r) in
  let quantity := Qfloor (cash s / P) in
  let cash' := cash s - inject_Z quantity * P in
  exists s',
    body i s = Ok s' /\
    stock_quantity s' = quantity /\
    cash s' = cash' /\
    transactions s' =
      transactions s ++
      [mkTransaction (Date (bar r)) Buy P quantity cash'
                     (cash' + inject_Z quantity * P)] /\
    last_buy_price s' = P /\
    last_action s' = Some Buy.
Proof.
  intros Hr Hb Hc Hl P quantity cash'.
  exists (mark_value r (trade r s)). split; [apply body_lookup, Hr|].
  unfold trade.
  rewrite (proj2 (buy_trigger_true r s) (conj Hb (conj Hc Hl))).
  simpl. auto.
Qed.

(** Example 1 of the specification: price 100 and cash 1000 give quantity 10,
    cash 0 and one Buy record of value 1000. *)
Lemma buy_step_witness :
  let r := mkRow (mkBar 7 100 (Some 2) (Some 1) (Some 30) (Some 20))
                 0 0 0 true false in
  exists s',
    body 0 (init [r] 1000) = Ok s' /\
    stock_quantity s' = 10%Z /\
    cash s' == 0 /\
    exists t, transactions s' = [t] /\
      tAction t = Buy /\ tPrice t == 100 /\ tQuantity t = 10%Z /\
      tCash t == 0 /\ tPortfolio_Value t == 1000.
Proof.
  intros r.
  destruct (buy_step 0 (init [r] 1000) r) as (s' & Hb & Hq & Hc & Ht & _);
    [reflexivity | reflexivity | reflexivity | discriminate |].
  exists s'. split; [exact Hb|]. rewrite Hq, Hc, Ht.
  split; [reflexivity|]. split; [reflexivity|].
  eexists. split; [reflexivity|]. simpl.
  repeat split; reflexivity.
Defined.

(** C8: in a run over a frame prepared by [evaluate_signals], at a bar with
    close price [P] where the sell guard of line 56 holds with quantity [Q]
    held, the body adds Q * P to the cash and sets the quantity to 0,
    appends the record (Sell, P, 0, cash, cash) to the journal, sets the last
    action to Sell, adds one to the count of trades, and adds one to the
    count of successful trades exactly when [P] exceeds the last buy
    price. *)
Theorem sell_step (bars : list Bar) (i : nat) (s : Sim) (r : Row) :
  fixed <$> data s = fixed <$> prepare bars ->
  data s !! i = Some r ->
  Sell_Condition r = true ->
  (0 < stock_quantity s)%Z ->
  last_action s <> Some Sell ->
  let P := Close (bar r) in
  let cash' := cash s + inject_Z (stock_quantity s) * P in
  exists s',
    body i s = Ok s' /\
    cash s' = cash' /\
    stock_quantity s' = 0%Z /\
    transactions s' =
      transactions s ++ [mkTransaction (Date (bar r)) Sell P 0 cash' cash'] /\
    last_action s' = Some Sell /\
    total_trades s' = S (total_trades s) /\
    (last_buy_price s < P -> successful_trades s' = S (successful_trades s)) /\
    (P <= last_buy_price s -> successful_trades s' = successful_trades s).
Proof.
  intros Hd Hr Hsell Hq Hl P cash'.
  exists (mark_value r (trade r s)). split; [apply body_lookup, Hr|].
  assert (Hbuy : Buy_Condition r = false).
  { destruct (fixed_lookup _ _ _ _ Hd Hr) as (r0 & Hr0 & Hfix).
    unfold prepare, evaluate_signals in Hr0.
    rewrite list_lookup_fmap in Hr0.
    destruct (initialize_columns bars !! i) as [r1|]; [|discriminate].
    injection Hr0 as <-. injection Hfix as _ Hb Hs.
    pose proof (signal_row_exclusive r1) as Hx.
    simpl in Hx, Hb, Hs.
    rewrite Hb, Hs, Hsell, andb_true_r in Hx. exact Hx. }
  unfold trade, buy_trigger. rewrite Hbuy. simpl.
  rewrite (proj2 (sell_trigger_true r s) (conj Hsell (conj Hq Hl))).
  simpl. fold P. repeat split; auto.
  - intros H. apply Qgtb_true in H. rewrite H. reflexivity.
  - intros H. apply Qgtb_false in H. rewrite H. reflexivity.
Qed.

(** Example 2 of the specification: selling at 110 the 10 shares bought at
    100 leaves 1100 in cash, no share, one trade and one successful trade. *)
Lemma sell_step_witness :
  for_range 0 1 (init (prepare example_bars) 1000) = Ok example_after_buy /\
  stock_quantity example_after_buy = 10%Z /\
  exists s',
    body 1 example_after_buy = Ok s' /\
    cash s' == 1100 /\
    stock_quantity s' = 0%Z /\
    last_action s' = Some Sell /\
    total_trades s' = 1%nat /\
    successful_trades s' = 1%nat /\
    exists t, transactions s' = transactions example_after_buy ++ [t] /\
      tAction t = Sell /\ tPrice t == 110 /\ tQuantity t = 0%Z /\
      tCash t == 1100 /\ tPortfolio_Value t == 1100.
Proof.
  split; [reflexivity|]. split; [reflexivity|].
  destruct (sell_step example_bars 1 example_after_buy
              (mkRow (mkBar 2 110 (Some 1) (Some 2) (Some 20) (Some 30))
                     0 0 0 false true))
    as (s' & Hb & Hc & Hq & Ht & Hl & Hn & Hs & _);
    [reflexivity | reflexivity | reflexivity | reflexivity | discriminate |].
  exists s'. split; [exact Hb|]. rewrite Hc, Hq, Hl, Hn, Hs, Ht by reflexivity.
  repeat (split; [reflexivity|]).
  eexists. split; [reflexivity|]. simpl.
  repeat split; reflexivity.
Defined.

(** C1, as amended: at a bar with close price [P] where the buy guard of
    line 48 holds but floor(cash / P) = 0, the body still appends a Buy
    record, of quantity 0, whose cash and value are the cash held; the cash
    keeps its value and the quantity is 0; the last action becomes Buy and
    the last buy price becomes [P]; the two counters keep their values. *)
Theorem buy_step_no_share (i : nat) (s : Sim) (r : Row) :
  data s !! i = Some r ->
  Buy_Condition r = true ->
  0 < cash s ->
  last_action s <> Some Buy ->
  Qfloor (cash s / Close (bar r)) = 0%Z ->
  exists s' t,
    body i s = Ok s' /\
    transactions s' = transactions s ++ [t] /\
    tDate t = Date (bar r) /\ tAction t = Buy /\ tPrice t = Close (bar r) /\
    tQuantity t = 0%Z /\ tCash t == cash s /\ tPortfolio_Value t == cash s /\
    cash s' == cash s /\
    stock_quantity s' = 0%Z /\
    last_action s' = Some Buy /\
    last_buy_price s' = Close (bar r) /\
    total_trades s' = total_trades s /\
    successful_trades s' = successful_trades s.
Proof.
  intros Hr Hb Hc Hl Hq.
  exists (mark_value r (trade r s)). eexists.
  split; [apply body_lookup, Hr|].
  unfold trade.
  rewrite (proj2 (buy_trigger_true r s) (conj Hb (conj Hc Hl))).
  unfold do_buy, mark_value. rewrite Hq.
  cbn [transactions cash stock_quantity last_action last_buy_price
       total_trades successful_trades].
  split; [reflexivity|].
  cbn [tDate tAction tPrice tQuantity tCash tPortfolio_Value].
  repeat split; ring.
Qed.

(** Example 3 of the specification, on the code: with 50 in cash and a
    price of 100 the guard holds, no share is affordable, and the body
    records a Buy of quantity 0 and moves to last action Buy. *)
Lemma buy_step_no_share_witness :
  let r := mkRow (mkBar 1 100 (Some 2) (Some 1) (Some 30) (Some 20))
                 0 0 0 true false in
  Qfloor (50 / 100) = 0%Z /\
  exists s' t,
    body 0 (init [r] 50) = Ok s' /\
    transactions s' = [t] /\ tAction t = Buy /\ tQuantity t = 0%Z /\
    cash s' == 50 /\ last_action s' = Some Buy.
Proof.
  intros r. split; [reflexivity|].
  destruct (buy_step_no_share 0 (init [r] 50) r)
    as (s' & t & Hb & Ht & _ & Ha & _ & Hq & _ & _ & Hc & _ & Hl & _);
    [reflexivity | reflexivity | reflexivity | discriminate | reflexivity |].
  exists s', t. repeat split; assumption.
Defined.

(** C1 fails on the code: on the one prepared bar of price 100 whose
    indicators say buy, with 50 in cash, the guard of line 48 holds and
    floor(50 / 100) = 0; the run returns a journal of one Buy record, and
    the last action and the last buy price have changed. *)
Lemma no_affordable_share_still_recorded :
  let frame := prepare [mkBar 1 100 (Some 2) (Some 1) (Some 30) (Some 20)] in
  let s := init frame 50 in
  (exists r, frame !! 0%nat = Some r /\ buy_trigger r s = true /\
             Qfloor (cash s / Close (bar r)) = 0%Z) /\
  exists s',
    run_simulation frame 50 = Ok s' /\
    transactions s' = [mkTransaction 1 Buy 100 0 (50 - 0 * 100)
                                     (50 - 0 * 100 + 0 * 100)] /\
    transactions s' <> transactions s /\
    last_action s' = Some Buy /\
    last_action s' <> last_action s /\
    last_buy_price s' = 100 /\
    ~ last_buy_price s' == last_buy_price s.
Proof.
  intros frame s. split.
  - eexists. split; [reflexivity|]. split; reflexivity.
  - eexists. split; [reflexivity|]. simpl.
    repeat split; try reflexivity; discriminate.
Qed.

(** ** The journal *)

Lemma alternates_interleaved (j : list Transaction) :
  alternates j -> interleaved j.
Proof.
  intros Halt i k t u Hik Hi Hk Heq.
  destruct (lookup_lt_is_Some_2 j (S i)) as [v Hv].
  { apply lookup_lt_Some in Hk. lia. }
  pose proof (Halt i t v Hi Hv) as Hne.
  destruct (decide (S i = k)) as [<-|Hne'].
  - congruence.
  - exists (S i), v. repeat split; auto; lia.
Qed.

Lemma alternates_snoc (j : list Transaction) (t : Transaction) :
  alternates j ->
  (forall u, last j = Some u -> tAction u <> tAction t) ->
  alternates (j ++ [t]).
Proof.
  intros Halt Hlast i a b Ha Hb.
  apply lookup_snoc_Some in Ha as [[Hlt Ha] | [-> _]];
    apply lookup_snoc_Some in Hb as [[Hlt' Hb] | [Hi <-]]; try lia.
  - eauto.
  - apply Hlast. rewrite last_lookup, <- Hi. exact Ha.
Qed.

Lemma journal_inv_init (frame : DataFrame) (c : Q) : journal_inv (init frame c).
Proof.
  repeat split. intros i t u H. discriminate H.
Qed.

Lemma journal_inv_trade (r : Row) (s : Sim) :
  journal_inv s -> journal_inv (mark_value r (trade r s)).
Proof.
  intros (Hlast & Halt & Hhead). unfold trade.
  destruct (buy_trigger r s) eqn:Hb; [|destruct (sell_trigger r s) eqn:Hs].
  - apply buy_trigger_true in Hb as (_ & _ & Hne).
    repeat split; simpl.
    + rewrite last_snoc. reflexivity.
    + apply alternates_snoc; auto. intros u Hu. simpl.
      rewrite Hlast, Hu in Hne. simpl in Hne. congruence.
    + destruct (transactions s); simpl; auto.
  - apply sell_trigger_true in Hs as (_ & Hq & Hne).
    repeat split; simpl.
    + rewrite last_snoc. reflexivity.
    + apply alternates_snoc; auto. intros u Hu. simpl.
      rewrite Hlast, Hu in Hne. simpl in Hne. congruence.
    + destruct (transactions s); simpl; auto. lia.
  - repeat split; simpl; auto.
Qed.

Lemma for_range_journal_inv (n start : nat) (s s' : Sim) :
  journal_inv s -> for_range start n s = Ok s' -> journal_inv s'.
Proof.
  intros Hs Hrun.
  apply (for_range_invariant (data s) (fun _ => True) journal_inv)
    with (n := n) (start := start) (s := s) (s' := s'); auto.
  - apply Forall_true. auto.
  - intros r s0 _. apply journal_inv_trade.
Qed.

Lemma run_simulation_Ok (frame : DataFrame) (c : Q) (s : Sim) :
  run_simulation frame c = Ok s ->
  exists start,
    start_index frame = Ok (LocInt start) /\
    for_range start (length frame - start) (init frame c) = Ok s.
Proof.
  unfold run_simulation.
  destruct (start_index frame) as [[start|ps]|]; simpl; try discriminate.
  eauto.
Qed.

(** C6: in the journal a run returns, no two consecutive records have the
    same action, and between any two records of the same action (two Buys,
    or two Sells) there is a record of the other action. *)
Theorem journal_debounced (frame : DataFrame) (initial_cash : Q) (s : Sim) :
  run_simulation frame initial_cash = Ok s ->
  alternates (transactions s) /\ interleaved (transactions s).
Proof.
  intros (start & _ & Hrun)%run_simulation_Ok.
  apply for_range_journal_inv in Hrun as (_ & Halt & _);
    [|apply journal_inv_init].
  split; [exact Halt | apply alternates_interleaved, Halt].
Qed.

(** C10: when the journal a run returns is not empty, its first record is a
    Buy. *)
Theorem journal_starts_with_buy
  (frame : DataFrame) (initial_cash : Q) (s : Sim) (t : Transaction) :
  run_simulation frame initial_cash = Ok s ->
  head (transactions s) = Some t ->
  tAction t = Buy.
Proof.
  intros (start & _ & Hrun)%run_simulation_Ok Hhead.
  apply for_range_journal_inv in Hrun as (_ & _ & H);
    [|apply journal_inv_init].
  destruct (transactions s); simpl in Hhead; [discriminate|].
  congruence.
Qed.

Lemma journal_debounced_witness :
  run_simulation (prepare debounce_bars) 1000 = Ok debounce_final /\
  tAction <$> transactions debounce_final = [Buy; Sell; Buy] /\
  alternates (transactions debounce_final) /\
  interleaved (transactions debounce_final).
Proof.
  split; [reflexivity|]. split; [reflexivity|].
  apply (journal_debounced (prepare debounce_bars) 1000 debounce_final).
  reflexivity.
Defined.

Lemma journal_starts_with_buy_witness :
  exists t,
    run_simulation (prepare debounce_bars) 1000 = Ok debounce_final /\
    head (transactions debounce_final) = Some t /\
    tAction t = Buy.
Proof.
  eexists. split; [reflexivity|]. split; [reflexivity|].
  apply (journal_starts_with_buy (prepare debounce_bars) 1000 debounce_final);
    reflexivity.
Defined.

(** ** Cash and quantity *)

Lemma simulation_after_all (frame : DataFrame) (initial_cash : Q) :
  simulation_after frame initial_cash (length frame) =
  run_simulation frame initial_cash.
Proof.
  unfold simulation_after, run_simulation.
  destruct (start_index frame) as [[start|ps]|]; simpl; try reflexivity.
  rewrite Nat.min_r by lia. reflexivity.
Qed.

(** The whole run is the run on the first [k] bars, continued. *)
Lemma run_simulation_continues (frame : DataFrame) (initial_cash : Q) (k start : nat) :
  start_index frame = Ok (LocInt start) ->
  (k <= length frame - start)%nat ->
  run_simulation frame initial_cash =
  let* s := simulation_after frame initial_cash k in
  for_range (start + k) (length frame - start - k) s.
Proof.
  intros Hstart Hk. unfold simulation_after, run_simulation.
  rewrite Hstart. simpl. rewrite Nat.min_l by lia.
  rewrite <- for_range_add. f_equal. lia.
Qed.

Lemma floor_div_mul_le (c p : Q) :
  0 < p -> inject_Z (Qfloor (c / p)) * p <= c.
Proof.
  intros Hp.
  apply Qle_trans with (c / p * p).
  - apply Qmult_le_compat_r; [apply Qfloor_le | apply Qlt_le_weak, Hp].
  - rewrite Qmult_comm, Qmult_div_r; [apply Qle_refl|].
    intros H. rewrite H in Hp. discriminate Hp.
Qed.

Lemma floor_div_nonneg (c p : Q) :
  0 <= c -> 0 < p -> (0 <= Qfloor (c / p))%Z.
Proof.
  intros Hc Hp. change 0%Z with (Qfloor 0).
  apply Qfloor_resp_le, Qle_shift_div_l; [exact Hp|].
  rewrite Qmult_0_l. exact Hc.
Qed.

Lemma nonnegative_trade (r : Row) (s : Sim) :
  0 < Close (bar r) -> nonnegative s -> nonnegative (mark_value r (trade r s)).
Proof.
  intros Hp [Hc Hq]. unfold trade, nonnegative.
  destruct (buy_trigger r s) eqn:Hb; [|destruct (sell_trigger r s) eqn:Hs];
    cbn [mark_value do_buy do_sell cash stock_quantity].
  - split.
    + unfold Qminus. rewrite <- Qle_minus_iff. apply floor_div_mul_le, Hp.
    + apply floor_div_nonneg; assumption.
  - split; [|lia].
    rewrite <- (Qplus_0_l 0). apply Qplus_le_compat; [exact Hc|].
    apply Qmult_le_0_compat; [|apply Qlt_le_weak, Hp].
    change 0 with (inject_Z 0). rewrite <- Zle_Qle. exact Hq.
  - auto.
Qed.

(** C4: on a frame whose close prices are all positive, started with a
    non-negative cash, the run reaches a state after each bar it processes
    (the loop raises nothing), and in that state the cash and the quantity
    are non-negative. *)
Theorem portfolio_nonnegative
  (frame : DataFrame) (initial_cash : Q) (start k : nat) :
  Forall (fun r => 0 < Close (bar r)) frame ->
  0 <= initial_cash ->
  start_index frame = Ok (LocInt start) ->
  exists s,
    simulation_after frame initial_cash k = Ok s /\
    0 <= cash s /\ (0 <= stock_quantity s)%Z.
Proof.
  intros Hpos Hc Hstart. unfold simulation_after. rewrite Hstart. simpl.
  destruct (for_range_total_min k start (init frame initial_cash)) as [s Hs].
  simpl in Hs.
  exists s. split; [exact Hs|].
  apply (for_range_invariant frame (fun r => 0 < Close (bar r)) nonnegative)
    in Hs as [H _]; auto.
  - intros r r0 H0 [= Hbar _ _]. rewrite <- Hbar. exact H0.
  - intros r s0. apply nonnegative_trade.
  - split; simpl; [exact Hc | lia].
Qed.

Lemma portfolio_nonnegative_witness :
  exists s,
    simulation_after (prepare debounce_bars) 1000 4 = Ok s /\
    0 <= cash s /\ (0 <= stock_quantity s)%Z.
Proof.
  apply (portfolio_nonnegative (prepare debounce_bars) 1000 0 4).
  - repeat constructor.
  - discriminate.
  - reflexivity.
Defined.

(** ** The start index *)

Lemma positions_absent (label : Z) (frame : DataFrame) (k : nat) :
  Forall (fun r => Date (bar r) <> label) frame ->
  positions label frame k = [].
Proof.
  revert k. induction frame as [|r rest IH]; intros k H; simpl; [reflexivity|].
  apply Forall_cons in H as [Hr Hrest].
  destruct (Z.eqb_spec (Date (bar r)) label); [contradiction|]. auto.
Qed.

(** In a strictly increasing index a label stands at one position. *)
Lemma positions_sorted (frame : DataFrame) :
  StronglySorted Z.lt (index frame) ->
  forall i r k,
    frame !! i = Some r -> positions (Date (bar r)) frame k = [(k + i)%nat].
Proof.
  induction frame as [|r0 rest IH]; intros Hs i r k Hi; [discriminate Hi|].
  unfold index in Hs. rewrite fmap_cons in Hs.
  apply StronglySorted_cons in Hs as [Hall Hs].
  rewrite Forall_fmap in Hall. simpl.
  destruct i as [|i]; simpl in Hi.
  - injection Hi as ->. rewrite Z.eqb_refl, Nat.add_0_r.
    rewrite positions_absent; [reflexivity|].
    eapply Forall_impl; [exact Hall|]. simpl. intros x Hx. lia.
  - assert (Hlt : (Date (bar r0) < Date (bar r))%Z).
    { rewrite Forall_lookup in Hall. apply (Hall i r Hi). }
    destruct (Z.eqb_spec (Date (bar r0)) (Date (bar r))); [lia|].
    rewrite (IH Hs i r (S k) Hi). f_equal. lia.
Qed.

Lemma get_loc_sorted (frame : DataFrame) (i : nat) (r : Row) :
  StronglySorted Z.lt (index frame) ->
  frame !! i = Some r ->
  get_loc frame (Date (bar r)) = Ok (LocInt i).
Proof.
  intros Hs Hi. unfold get_loc. rewrite (positions_sorted frame Hs i r 0 Hi).
  reflexivity.
Qed.

Lemma index_increasing (frame : DataFrame) (i j : nat) (r r' : Row) :
  StronglySorted Z.lt (index frame) ->
  (i < j)%nat -> frame !! i = Some r -> frame !! j = Some r' ->
  (Date (bar r) < Date (bar r'))%Z.
Proof.
  revert i j. induction frame as [|r0 rest IH]; intros i j Hs Hij Hi Hj;
    [discriminate Hi|].
  unfold index in Hs. rewrite fmap_cons in Hs.
  apply StronglySorted_cons in Hs as [Hall Hs].
  rewrite Forall_fmap, Forall_lookup in Hall.
  destruct j as [|j]; [lia|]. simpl in Hj.
  destruct i as [|i]; simpl in Hi.
  - injection Hi as <-. apply (Hall j r' Hj).
  - apply (IH i j); auto. lia.
Qed.

(** [first_valid_index] in terms of positions. *)
Lemma first_valid_index_Some (col : Bar -> option Q) (frame : DataFrame) (label : Z) :
  first_valid_index col frame = Some label <->
  exists i r,
    frame !! i = Some r /\ label = Date (bar r) /\ is_Some (col (bar r)) /\
    forall j r', frame !! j = Some r' -> (j < i)%nat -> col (bar r') = None.
Proof.
  unfold first_valid_index. split.
  - destruct (list_find _ frame) as [[i r]|] eqn:Hf; simpl; [|discriminate].
    intros [= <-]. apply list_find_Some in Hf as (Hi & Hr & Hbefore).
    exists i, r. repeat split; auto.
    intros j r' Hj Hlt. specialize (Hbefore j r' Hj Hlt).
    destruct (col (bar r')); [|reflexivity]. exfalso. eauto.
  - intros (i & r & Hi & -> & Hr & Hbefore).
    assert (Hf : list_find (fun r => is_Some (col (bar r))) frame = Some (i, r)).
    { apply list_find_Some. repeat split; auto.
      intros j r' Hj Hlt. rewrite (Hbefore j r' Hj Hlt). apply is_Some_None. }
    rewrite Hf. reflexivity.
Qed.

Lemma first_valid_index_None (col : Bar -> option Q) (frame : DataFrame) :
  first_valid_index col frame = None <->
  Forall (fun r => col (bar r) = None) frame.
Proof.
  unfold first_valid_index.
  destruct (list_find _ frame) as [[i r]|] eqn:Hf; simpl.
  - split; [discriminate|]. intros Hall.
    apply list_find_Some in Hf as (Hi & Hr & _).
    rewrite Forall_lookup in Hall. rewrite (Hall i r Hi) in Hr.
    destruct Hr; discriminate.
  - split; [|reflexivity]. intros _.
    apply list_find_None in Hf. eapply Forall_impl; [exact Hf|].
    simpl. intros r Hr. destruct (col (bar r)); [|reflexivity].
    exfalso. eauto.
Qed.

(** On a strictly increasing index, [start_index] is the later of the two
    positions where minus-DI and plus-DI are first defined. *)
Lemma start_index_sorted (frame : DataFrame) (m p : nat) (rm rp : Row) :
  StronglySorted Z.lt (index frame) ->
  frame !! m = Some rm ->
  first_valid_index MINUS_DI frame = Some (Date (bar rm)) ->
  frame !! p = Some rp ->
  first_valid_index PLUS_DI frame = Some (Date (bar rp)) ->
  start_index frame = Ok (LocInt (max m p)).
Proof.
  intros Hs Hm Hfm Hp Hfp. unfold start_index. rewrite Hfm, Hfp. simpl.
  destruct (Z.ltb_spec (Date (bar rm)) (Date (bar rp))) as [Hlt|Hge].
  - destruct (le_lt_dec p m) as [Hle|Hmp].
    + destruct (decide (p = m)) as [->|Hne].
      * rewrite Hm in Hp. injection Hp as <-. lia.
      * pose proof (index_increasing frame p m rp rm Hs ltac:(lia) Hp Hm). lia.
    + rewrite Nat.max_r by lia. apply get_loc_sorted; auto.
  - destruct (le_lt_dec p m) as [Hle|Hmp].
    + rewrite Nat.max_l by lia. apply get_loc_sorted; auto.
    + pose proof (index_increasing frame m p rm rp Hs ltac:(lia) Hm Hp). lia.
Qed.

Lemma first_valid_index_Exists (col : Bar -> option Q) (frame : DataFrame) :
  Exists (fun r => is_Some (col (bar r))) frame ->
  exists i r,
    frame !! i = Some r /\
    first_valid_index col frame = Some (Date (bar r)) /\
    is_Some (col (bar r)) /\
    forall j r', frame !! j = Some r' -> (j < i)%nat -> col (bar r') = None.
Proof.
  intros Hex.
  destruct (first_valid_index col frame) as [label|] eqn:Hf.
  - apply first_valid_index_Some in Hf as (i & r & Hi & -> & Hr & Hbefore).
    exists i, r. auto.
  - apply first_valid_index_None in Hf.
    apply Exists_exists in Hex as (r & Hin & Hr).
    rewrite Forall_forall in Hf. rewrite (Hf r Hin) in Hr.
    destruct Hr; discriminate.
Qed.

(** C2, as amended: on a frame with a strictly increasing index where plus-DI
    and minus-DI are each defined somewhere and undefined on a leading run of
    bars only, the loop of [run_simulation] starts at the first position
    where plus-DI and minus-DI are both defined, and both are defined at
    every position from there on.  MACD and its signal play no part. *)
Theorem start_index_DI_warm_up (frame : DataFrame) :
  StronglySorted Z.lt (index frame) ->
  warm_up PLUS_DI frame ->
  warm_up MINUS_DI frame ->
  Exists (fun r => is_Some (PLUS_DI (bar r))) frame ->
  Exists (fun r => is_Some (MINUS_DI (bar r))) frame ->
  exists start,
    start_index frame = Ok (LocInt start) /\
    (forall initial_cash,
        run_simulation frame initial_cash =
        for_range start (length frame - start) (init frame initial_cash)) /\
    forall i r,
      frame !! i = Some r ->
      ((start <= i)%nat <->
       is_Some (PLUS_DI (bar r)) /\ is_Some (MINUS_DI (bar r))).
Proof.
  intros Hs Hwp Hwm Hp Hm.
  apply first_valid_index_Exists in Hp as (p & rp & Hp & Hfp & Hdp & Hbp).
  apply first_valid_index_Exists in Hm as (m & rm & Hm & Hfm & Hdm & Hbm).
  pose proof (start_index_sorted frame m p rm rp Hs Hm Hfm Hp Hfp) as Hstart.
  exists (max m p). split; [exact Hstart|]. split.
  - intros c. unfold run_simulation. rewrite Hstart. reflexivity.
  - intros i r Hi. split.
    + intros Hle. split.
      * apply (Hwp p i rp r); auto. lia.
      * apply (Hwm m i rm r); auto. lia.
    + intros [Hip Him].
      destruct (le_lt_dec p i) as [Hpi|Hpi];
        [|rewrite (Hbp i r Hi Hpi) in Hip; destruct Hip; discriminate].
      destruct (le_lt_dec m i) as [Hmi|Hmi];
        [|rewrite (Hbm i r Hi Hmi) in Him; destruct Him; discriminate].
      lia.
Qed.

(** C2 fails on the code: with the directional indicators defined from the
    first bar and MACD from the second only, the loop starts at position 0,
    where MACD and its signal are undefined; the first bar with the four
    indicators defined is at position 1. *)
Lemma start_index_ignores_MACD :
  let frame :=
    prepare [ mkBar 1 100 None None (Some 30) (Some 20);
              mkBar 2 100 (Some 2) (Some 1) (Some 30) (Some 20) ] in
  start_index frame = Ok (LocInt 0) /\
  (exists r, frame !! 0%nat = Some r /\
             MACD (bar r) = None /\ MACDSignal (bar r) = None) /\
  (exists r, frame !! 1%nat = Some r /\
             is_Some (PLUS_DI (bar r)) /\ is_Some (MINUS_DI (bar r)) /\
             is_Some (MACD (bar r)) /\ is_Some (MACDSignal (bar r))).
Proof.
  intros frame. split; [reflexivity|]. split.
  - eexists. repeat split.
  - eexists. split; [reflexivity|]. simpl. repeat split; eauto.
Qed.

Lemma start_index_DI_warm_up_witness :
  let frame :=
    prepare [ mkBar 1 100 None None None None;
              mkBar 2 101 None None (Some 30) None;
              mkBar 3 102 None None (Some 30) (Some 20) ] in
  exists start,
    start_index frame = Ok (LocInt start) /\
    start = 2%nat /\
    forall i r,
      frame !! i = Some r ->
      ((start <= i)%nat <->
       is_Some (PLUS_DI (bar r)) /\ is_Some (MINUS_DI (bar r))).
Proof.
  intros frame.
  destruct (start_index_DI_warm_up frame) as (start & Hs & _ & Hdef).
  - repeat constructor.
  - intros [|[|[|i]]] [|[|[|j]]] r r' Hle Hi Hj Hr;
      try discriminate Hi; try discriminate Hj; try lia;
      injection Hi as <-; injection Hj as <-;
      solve [eauto | destruct Hr; discriminate].
  - intros [|[|[|i]]] [|[|[|j]]] r r' Hle Hi Hj Hr;
      try discriminate Hi; try discriminate Hj; try lia;
      injection Hi as <-; injection Hj as <-;
      solve [eauto | destruct Hr; discriminate].
  - apply Exists_cons_tl, Exists_cons_hd. simpl. eauto.
  - apply Exists_cons_tl, Exists_cons_tl, Exists_cons_hd. simpl. eauto.
  - exists start. split; [exact Hs|]. split; [|exact Hdef].
    vm_compute in Hs. congruence.
Defined.

(** ** Insufficient data *)

Lemma bar_prepare (bars : list Bar) : bar <$> prepare bars = bars.
Proof.
  unfold prepare, evaluate_signals, initialize_columns.
  rewrite <- !list_fmap_compose. simpl.
  rewrite <- (list_fmap_id bars) at 2. apply list_fmap_ext. reflexivity.
Qed.

Lemma index_prepare (bars : list Bar) : index (prepare bars) = Date <$> bars.
Proof.
  unfold index. rewrite <- (bar_prepare bars) at 2.
  rewrite <- list_fmap_compose. reflexivity.
Qed.

Lemma Forall_prepare (P : Bar -> Prop) (bars : list Bar) :
  Forall (fun r => P (bar r)) (prepare bars) <-> Forall P bars.
Proof.
  rewrite <- (bar_prepare bars) at 2. rewrite Forall_fmap. reflexivity.
Qed.

Lemma Exists_prepare (P : Bar -> Prop) (bars : list Bar) :
  Exists (fun r => P (bar r)) (prepare bars) <-> Exists P bars.
Proof.
  rewrite <- (bar_prepare bars) at 2. rewrite Exists_fmap. reflexivity.
Qed.

(** Where an indicator is undefined, [evaluate_signals] writes two false
    conditions. *)
Lemma prepare_no_signal (bars : list Bar) :
  Forall (fun b => ~ all_defined b) bars ->
  Forall (fun r => Buy_Condition r = false /\ Sell_Condition r = false)
         (prepare bars).
Proof.
  intros Hall. unfold prepare, evaluate_signals, initialize_columns.
  rewrite !Forall_fmap. eapply Forall_impl; [exact Hall|].
  intros b Hb. simpl. unfold all_defined in Hb.
  split; apply not_true_is_false; rewrite andb_true_iff; unfold lt;
    intros [[]%gt_defined []%gt_defined]; tauto.
Qed.

Lemma nothing_recorded_trade (r : Row) (s : Sim) :
  Buy_Condition r = false /\ Sell_Condition r = false ->
  nothing_recorded s -> nothing_recorded (mark_value r (trade r s)).
Proof.
  intros [Hb Hs] H. unfold trade, buy_trigger, sell_trigger.
  rewrite Hb, Hs. exact H.
Qed.

Lemma run_simulation_total (frame : DataFrame) (c : Q) (start : nat) :
  start_index frame = Ok (LocInt start) ->
  exists s, run_simulation frame c = Ok s.
Proof.
  intros Hstart. unfold run_simulation. rewrite Hstart. simpl.
  destruct (for_range_total_min (length frame - start) start (init frame c))
    as [s Hs].
  simpl in Hs. rewrite Nat.min_id in Hs. eauto.
Qed.

(** C3, as amended: on prepared bars none of which has the four indicators
    defined, [run_simulation] raises a [TypeError] when plus-DI is undefined
    on every bar or minus-DI is undefined on every bar (so on no bar at all);
    when each of the two is defined on some bar and the dates increase
    strictly, it returns an empty journal and two counters at 0. *)
Theorem insufficient_data (bars : list Bar) (initial_cash : Q) :
  Forall (fun b => ~ all_defined b) bars ->
  (Forall (fun b => PLUS_DI b = None) bars \/
   Forall (fun b => MINUS_DI b = None) bars ->
   run_simulation (prepare bars) initial_cash = Raise TypeError) /\
  (StronglySorted Z.lt (Date <$> bars) ->
   Exists (fun b => is_Some (PLUS_DI b)) bars ->
   Exists (fun b => is_Some (MINUS_DI b)) bars ->
   exists s,
     run_simulation (prepare bars) initial_cash = Ok s /\
     returned s = ([], 0%nat, 0%nat)).
Proof.
  intros Hnone. split.
  - intros H. unfold run_simulation, start_index.
    destruct H as [H|H];
      apply (Forall_prepare (fun b => _ b = None)) in H;
      apply first_valid_index_None in H; rewrite H.
    + destruct (first_valid_index MINUS_DI (prepare bars)); reflexivity.
    + reflexivity.
  - intros Hs Hp Hm. rewrite <- index_prepare in Hs.
    apply (Exists_prepare (fun b => is_Some (PLUS_DI b))) in Hp.
    apply (Exists_prepare (fun b => is_Some (MINUS_DI b))) in Hm.
    apply first_valid_index_Exists in Hp as (p & rp & Hp & Hfp & _).
    apply first_valid_index_Exists in Hm as (m & rm & Hm & Hfm & _).
    pose proof (start_index_sorted _ m p rm rp Hs Hm Hfm Hp Hfp) as Hstart.
    destruct (run_simulation_total _ initial_cash _ Hstart) as [s Hrun].
    exists s. split; [exact Hrun|].
    apply run_simulation_Ok in Hrun as (start & _ & Hrun).
    apply (for_range_invariant (prepare bars)
             (fun r => Buy_Condition r = false /\ Sell_Condition r = false)
             nothing_recorded) in Hrun as [(Ht & Hn & Hk) _]; auto.
    + unfold returned. rewrite Ht, Hn, Hk. reflexivity.
    + intros r r0 [Hb0 Hs0] [= _ Hb1 Hs1]. split; congruence.
    + apply prepare_no_signal, Hnone.
    + intros r s0. apply nothing_recorded_trade.
    + repeat split.
Qed.

Lemma insufficient_data_witness :
  Forall (fun b => ~ all_defined b) short_bars /\
  exists s,
    run_simulation (prepare short_bars) 100000 = Ok s /\
    returned s = ([], 0%nat, 0%nat).
Proof.
  assert (H : Forall (fun b => ~ all_defined b) short_bars).
  { repeat constructor; intros (_ & _ & [x Hx] & _); discriminate Hx. }
  split; [exact H|].
  apply (insufficient_data short_bars 100000 H).
  - repeat constructor.
  - apply Exists_cons_tl, Exists_cons_hd. simpl. eauto.
  - apply Exists_cons_tl, Exists_cons_hd. simpl. eauto.
Defined.

(** C3 fails on the code: on two bars, fewer than any warm-up window, no
    indicator is defined, and [run_simulation] raises where the claim has it
    return an empty result. *)
Lemma insufficient_data_raises :
  Forall (fun b => ~ all_defined b) shorter_bars /\
  run_simulation (prepare shorter_bars) 100000 = Raise TypeError /\
  forall s, run_simulation (prepare shorter_bars) 100000 <> Ok s.
Proof.
  split; [|split; [reflexivity | discriminate]].
  repeat constructor; intros ([x Hx] & _); discriminate Hx.
Qed.

(** * Further properties of the engine *)

(** ** Invariants along the run *)

(** Like [for_range_invariant], for a property that depends on the position
    the loop has reached. *)
Lemma for_range_invariant_at (frame : DataFrame) (P : nat -> Sim -> Prop) :
  (forall i r s,
      data s !! i = Some r ->
      fixed <$> data s = fixed <$> frame ->
      P i s -> P (S i) (mark_value r (trade r s))) ->
  forall n start s s',
    fixed <$> data s = fixed <$> frame ->
    P start s ->
    for_range start n s = Ok s' ->
    P (start + n)%nat s' /\ fixed <$> data s' = fixed <$> frame.
Proof.
  intros Hstep. induction n as [|n IH]; intros start s s' Hd Hs; simpl.
  - intros [= <-]. rewrite Nat.add_0_r. auto.
  - destruct (body start s) as [s1|] eqn:Hb; simpl; [|discriminate].
    intros Hrun. replace (start + S n)%nat with (S start + n)%nat by lia.
    apply (IH (S start) s1 s'); auto.
    + rewrite (body_fixed _ _ _ Hb). exact Hd.
    + apply body_Ok in Hb as (r & Hr & ->). apply Hstep; auto.
Qed.

Lemma simulation_after_Ok (frame : DataFrame) (c : Q) (k : nat) (s : Sim) :
  simulation_after frame c k = Ok s ->
  exists start,
    start_index frame = Ok (LocInt start) /\
    for_range start (min k (length frame - start)) (init frame c) = Ok s.
Proof.
  unfold simulation_after.
  destruct (start_index frame) as [[start|ps]|]; simpl; try discriminate.
  eauto.
Qed.

(** An invariant of the body holds of the state after any number of bars. *)
Lemma simulation_after_invariant
  (frame : DataFrame) (R : Row -> Prop) (P : Sim -> Prop)
  (c : Q) (k : nat) (s : Sim) :
  (forall r r0, R r0 -> fixed r0 = fixed r -> R r) ->
  Forall R frame ->
  (forall r s, R r -> P s -> P (mark_value r (trade r s))) ->
  P (init frame c) ->
  simulation_after frame c k = Ok s ->
  P s.
Proof.
  intros HR Hall Hstep Hinit (start & _ & Hrun)%simulation_after_Ok.
  apply (for_range_invariant frame R P HR Hall Hstep) in Hrun as [H _]; auto.
Qed.

Lemma simulation_after_total (frame : DataFrame) (c : Q) (k start : nat) :
  start_index frame = Ok (LocInt start) ->
  exists s, simulation_after frame c k = Ok s.
Proof.
  intros Hstart. unfold simulation_after. rewrite Hstart. simpl.
  destruct (for_range_total_min k start (init frame c)) as [s Hs].
  simpl in Hs. eauto.
Qed.

(** ** What run_simulation raises *)

Lemma positions_present (frame : DataFrame) (i k : nat) (r : Row) :
  frame !! i = Some r -> positions (Date (bar r)) frame k <> [].
Proof.
  revert i k. induction frame as [|r0 rest IH]; intros i k Hi;
    [discriminate Hi|].
  simpl. destruct (Z.eqb_spec (Date (bar r0)) (Date (bar r))); [discriminate|].
  destruct i as [|i]; simpl in Hi.
  - injection Hi as ->. contradiction.
  - apply (IH i). exact Hi.
Qed.

Lemma get_loc_present (frame : DataFrame) (i : nat) (r : Row) :
  frame !! i = Some r -> exists l, get_loc frame (Date (bar r)) = Ok l.
Proof.
  intros Hi. unfold get_loc.
  pose proof (positions_present frame i 0 r Hi) as Hne.
  destruct (positions (Date (bar r)) frame 0) as [|p [|q ps]];
    [contradiction | eauto | eauto].
Qed.

Lemma start_index_raises (frame : DataFrame) (e : exn) :
  start_index frame = Raise e -> e = TypeError.
Proof.
  unfold start_index.
  destruct (first_valid_index MINUS_DI frame) as [lm|] eqn:Hm;
    [|simpl; congruence].
  destruct (first_valid_index PLUS_DI frame) as [lp|] eqn:Hp;
    [|simpl; congruence].
  apply first_valid_index_Some in Hm as (m & rm & Hm & -> & _).
  apply first_valid_index_Some in Hp as (p & rp & Hp & -> & _).
  simpl.
  destruct (Date (bar rm) <? Date (bar rp))%Z.
  - destruct (get_loc_present frame p rp Hp) as [l ->]. discriminate.
  - destruct (get_loc_present frame m rm Hm) as [l ->]. discriminate.
Qed.

(** X1: whatever the frame, the only exception [run_simulation] raises is a
    [TypeError] (a column of directional indicators all NaN, or a start label
    that stands at several positions): the label it looks up is in the index
    and the loop never reads outside the frame.  When the dates increase
    strictly and each directional indicator is defined on some row, it
    returns. *)
Theorem run_simulation_raises_only_TypeError
  (frame : DataFrame) (initial_cash : Q) :
  (forall e, run_simulation frame initial_cash = Raise e -> e = TypeError) /\
  (StronglySorted Z.lt (index frame) ->
   Exists (fun r => is_Some (PLUS_DI (bar r))) frame ->
   Exists (fun r => is_Some (MINUS_DI (bar r))) frame ->
   exists s, run_simulation frame initial_cash = Ok s).
Proof.
  split.
  - intros e. unfold run_simulation.
    destruct (start_index frame) as [[start|ps]|e'] eqn:Hstart; simpl.
    + destruct (run_simulation_total frame initial_cash start Hstart)
        as [s Hs].
      unfold run_simulation in Hs. rewrite Hstart in Hs. simpl in Hs.
      rewrite Hs. discriminate.
    + congruence.
    + intros [= <-]. apply (start_index_raises frame e' Hstart).
  - intros Hs Hp Hm.
    apply first_valid_index_Exists in Hp as (p & rp & Hp & Hfp & _).
    apply first_valid_index_Exists in Hm as (m & rm & Hm & Hfm & _).
    apply (run_simulation_total frame initial_cash (max m p)).
    apply (start_index_sorted frame m p rm rp); assumption.
Qed.

(** ** What run_simulation leaves alone *)

(** X2: the frame [run_simulation] returns has the rows of the frame it was
    given, with the same bars and the same two conditions: the loop writes
    to [Buy_Signal], [Sell_Signal] and [Portfolio_Value] only. *)
Theorem run_simulation_keeps_input
  (frame : DataFrame) (initial_cash : Q) (s : Sim) :
  run_simulation frame initial_cash = Ok s ->
  length (data s) = length frame /\
  forall i r,
    data s !! i = Some r ->
    exists r0,
      frame !! i = Some r0 /\ bar r = bar r0 /\
      Buy_Condition r = Buy_Condition r0 /\
      Sell_Condition r = Sell_Condition r0.
Proof.
  intros (start & _ & Hrun)%run_simulation_Ok.
  apply (for_range_invariant frame (fun _ => True) (fun _ => True))
    in Hrun as [_ Hfix]; auto; [|apply Forall_true; auto].
  split; [apply fixed_length, Hfix|].
  intros i r Hi.
  destruct (fixed_lookup _ _ _ _ Hfix Hi) as (r0 & Hr0 & [= Hb Hc Hd]).
  exists r0. auto.
Qed.

Lemma run_simulation_keeps_input_witness :
  length (data debounce_final) = 6%nat /\
  bar <$> data debounce_final = debounce_bars.
Proof.
  destruct (run_simulation_keeps_input (prepare debounce_bars) 1000
              debounce_final eq_refl) as [Hlen _].
  split; [exact Hlen | reflexivity].
Defined.

Lemma run_simulation_raises_only_TypeError_witness :
  (exists s, run_simulation (prepare debounce_bars) 1000 = Ok s) /\
  run_simulation (prepare shorter_bars) 1000 = Raise TypeError.
Proof.
  split; [|reflexivity].
  apply (proj2 (run_simulation_raises_only_TypeError
                  (prepare debounce_bars) 1000)).
  - repeat constructor.
  - apply Exists_cons_hd. simpl. eauto.
  - apply Exists_cons_hd. simpl. eauto.
Defined.

(** ** The ledger along the run *)

Lemma trade_cases (r : Row) (s : Sim) (P : Sim -> Prop) :
  (Buy_Condition r = true -> 0 < cash s -> last_action s <> Some Buy ->
   P (do_buy r s)) ->
  (Sell_Condition r = true -> (0 < stock_quantity s)%Z ->
   last_action s <> Some Sell -> P (do_sell r s)) ->
  P s ->
  P (trade r s).
Proof.
  intros Hbuy Hsell Hnone. unfold trade.
  destruct (buy_trigger r s) eqn:Hb; [|destruct (sell_trigger r s) eqn:Hs].
  - apply buy_trigger_true in Hb as (? & ? & ?). auto.
  - apply sell_trigger_true in Hs as (? & ? & ?). auto.
  - exact Hnone.
Qed.

Lemma count_action_snoc (a : Action) (j : list Transaction) (t : Transaction) :
  count_action a (j ++ [t]) =
  (count_action a j + (if Action_eqb (tAction t) a then 1 else 0))%nat.
Proof.
  unfold count_action. rewrite List.filter_app, length_app. simpl.
  destruct (Action_eqb (tAction t) a); reflexivity.
Qed.

Lemma position_inv_trade (r : Row) (s : Sim) :
  position_inv s -> position_inv (mark_value r (trade r s)).
Proof.
  intros Hpos. unfold position_inv. cbn [mark_value last_action stock_quantity].
  apply (trade_cases r s
           (fun s' => last_action s' <> Some Buy -> stock_quantity s' = 0%Z));
    simpl; auto; congruence.
Qed.

Lemma holding_after_buy (s : Sim) :
  position_inv s -> (0 < stock_quantity s)%Z -> last_action s = Some Buy.
Proof.
  intros Hpos Hq. destruct (last_action s) as [[]|] eqn:Hl; auto;
    unfold position_inv in Hpos; rewrite Hl in Hpos;
    assert (stock_quantity s = 0%Z) by (apply Hpos; discriminate); lia.
Qed.

Lemma counts_inv_trade (r : Row) (s : Sim) :
  position_inv s -> counts_inv s -> counts_inv (mark_value r (trade r s)).
Proof.
  intros Hpos (Htot & Hle & Hbuy). unfold counts_inv, open_position.
  cbn [mark_value last_action transactions total_trades successful_trades].
  apply (trade_cases r s
           (fun s' =>
              total_trades s' = count_action Sell (transactions s') /\
              (successful_trades s' <= total_trades s')%nat /\
              count_action Buy (transactions s') =
              (total_trades s' + match last_action s' with
                                 | Some Buy => 1
                                 | _ => 0
                                 end)%nat)).
  - intros _ _ Hne. simpl. rewrite !count_action_snoc. simpl.
    unfold open_position in Hbuy.
    destruct (last_action s) as [[]|]; [congruence| |]; lia.
  - intros _ Hq _. simpl. rewrite !count_action_snoc. simpl.
    unfold open_position in Hbuy.
    rewrite (holding_after_buy s Hpos Hq) in Hbuy.
    destruct (Qgtb (Close (bar r)) (last_buy_price s)); lia.
  - auto.
Qed.

Lemma settled_inv_trade (c0 : Q) (r : Row) (s : Sim) :
  position_inv s -> settled_inv c0 s -> settled_inv c0 (mark_value r (trade r s)).
Proof.
  intros Hpos (Hcash & Hpv). unfold settled_inv.
  cbn [mark_value last_action transactions cash].
  apply (trade_cases r s
           (fun s' =>
              (last_action s' <> Some Buy ->
               cash s' == settled c0 (transactions s')) /\
              forall i t,
                transactions s' !! i = Some t ->
                tPortfolio_Value t ==
                settled c0 (take (S i) (transactions s')))).
  - intros _ _ Hne. cbn [do_buy last_action transactions cash]. split.
    + congruence.
    + intros i t [[Hlt Hi] | [-> <-]]%lookup_snoc_Some.
      * rewrite take_app_le by lia. auto.
      * rewrite take_ge by (rewrite length_app; simpl; lia).
        unfold settled at 1. rewrite foldl_snoc.
        cbn [tAction tPortfolio_Value]. fold (settled c0 (transactions s)).
        rewrite <- (Hcash Hne). ring.
  - intros _ _ _. cbn [do_sell last_action transactions cash]. split.
    + intros _. unfold settled. rewrite foldl_snoc. simpl. reflexivity.
    + intros i t [[Hlt Hi] | [-> <-]]%lookup_snoc_Some.
      * rewrite take_app_le by lia. auto.
      * rewrite take_ge by (rewrite length_app; simpl; lia).
        unfold settled. rewrite foldl_snoc. simpl. reflexivity.
  - auto.
Qed.

Lemma ledger_inv_init (frame : DataFrame) (c0 : Q) : ledger_inv c0 (init frame c0).
Proof.
  repeat split; simpl; try reflexivity; auto.
  intros i t H. discriminate H.
Qed.

Lemma ledger_inv_trade (c0 : Q) (r : Row) (s : Sim) :
  ledger_inv c0 s -> ledger_inv c0 (mark_value r (trade r s)).
Proof.
  intros (Hpos & Hcnt & Hset).
  split; [|split];
    auto using position_inv_trade, counts_inv_trade, settled_inv_trade.
Qed.

Lemma simulation_after_ledger_inv (frame : DataFrame) (c0 : Q) (k : nat) (s : Sim) :
  simulation_after frame c0 k = Ok s -> ledger_inv c0 s.
Proof.
  apply (simulation_after_invariant frame (fun _ => True) (ledger_inv c0));
    auto using ledger_inv_init.
  - apply Forall_true. auto.
  - intros r s0 _. apply ledger_inv_trade.
Qed.

Lemma simulation_after_journal_inv (frame : DataFrame) (c0 : Q) (k : nat) (s : Sim) :
  simulation_after frame c0 k = Ok s -> journal_inv s.
Proof.
  apply (simulation_after_invariant frame (fun _ => True) journal_inv);
    auto using journal_inv_init.
  - apply Forall_true. auto.
  - intros r s0 _. apply journal_inv_trade.
Qed.

Lemma run_simulation_ledger_inv (frame : DataFrame) (c0 : Q) (s : Sim) :
  run_simulation frame c0 = Ok s -> ledger_inv c0 s.
Proof.
  rewrite <- simulation_after_all. apply simulation_after_ledger_inv.
Qed.

(** X3: after any number of bars the variables of the run agree with the
    last action: before any action the journal is empty, no share is held
    and the cash is the initial cash; after a Sell no share is held; shares
    are held only after a Buy; and the last action is the action of the last
    record of the journal. *)
Theorem position_follows_last_action
  (frame : DataFrame) (initial_cash : Q) (k : nat) (s : Sim) :
  simulation_after frame initial_cash k = Ok s ->
  last_action s = tAction <$> last (transactions s) /\
  (last_action s = None ->
   transactions s = [] /\ stock_quantity s = 0%Z /\ cash s == initial_cash) /\
  (last_action s = Some Sell -> stock_quantity s = 0%Z) /\
  ((0 < stock_quantity s)%Z -> last_action s = Some Buy).
Proof.
  intros Hrun.
  pose proof (simulation_after_ledger_inv _ _ _ _ Hrun)
    as (Hpos & _ & Hcash & _).
  pose proof (simulation_after_journal_inv _ _ _ _ Hrun) as (Hlast & _ & _).
  split; [exact Hlast|]. split; [|split].
  - intros Hnone.
    assert (Hj : transactions s = []).
    { rewrite Hnone in Hlast. destruct (last (transactions s)) eqn:E;
        [discriminate|]. apply last_None, E. }
    split; [exact Hj|]. split.
    + apply Hpos. congruence.
    + rewrite Hcash by congruence. rewrite Hj. reflexivity.
  - intros Hsell. apply Hpos. congruence.
  - apply holding_after_buy, Hpos.
Qed.

Lemma position_follows_last_action_witness :
  exists s,
    simulation_after (prepare debounce_bars) 1000 2 = Ok s /\
    last_action s = Some Buy /\
    last_action s = tAction <$> last (transactions s).
Proof.
  eexists. split; [reflexivity|]. split; [reflexivity|].
  exact (proj1 (position_follows_last_action
                  (prepare debounce_bars) 1000 2 _ eq_refl)).
Defined.

Lemma count_action_length (j : list Transaction) :
  length j = (count_action Buy j + count_action Sell j)%nat.
Proof.
  unfold count_action. induction j as [|t j IH]; simpl; [reflexivity|].
  destruct (tAction t); simpl; lia.
Qed.

(** X4: in the state [run_simulation] returns, [total_trades] is the number
    of Sell records of the journal, [successful_trades] does not exceed it,
    and the journal holds one Buy record per Sell record, plus one when the
    last action is a Buy (a position still open): 2 * total_trades records,
    or one more. *)
Theorem trades_counted (frame : DataFrame) (initial_cash : Q) (s : Sim) :
  run_simulation frame initial_cash = Ok s ->
  total_trades s = count_action Sell (transactions s) /\
  (successful_trades s <= total_trades s)%nat /\
  count_action Buy (transactions s) = (total_trades s + open_position s)%nat /\
  length (transactions s) = (2 * total_trades s + open_position s)%nat.
Proof.
  intros (_ & (Htot & Hle & Hbuy) & _)%run_simulation_ledger_inv.
  repeat split; auto.
  rewrite count_action_length, Hbuy, <- Htot. lia.
Qed.

Lemma trades_counted_witness :
  total_trades debounce_final = 1%nat /\
  open_position debounce_final = 1%nat /\
  length (transactions debounce_final) = 3%nat.
Proof.
  destruct (trades_counted (prepare debounce_bars) 1000 debounce_final eq_refl)
    as (_ & _ & _ & Hlen).
  split; [reflexivity|]. split; [reflexivity|]. exact Hlen.
Defined.

(** X5: the [Portfolio_Value] of every record of the journal is the cash
    left by the most recent Sell up to that record, itself included, and the
    initial cash when nothing was sold yet: a Buy record repeats the value
    there was before it, so the value of the last record never reflects the
    price of shares still held. *)
Theorem journal_values_settled
  (frame : DataFrame) (initial_cash : Q) (s : Sim) :
  run_simulation frame initial_cash = Ok s ->
  (forall i t,
      transactions s !! i = Some t ->
      tPortfolio_Value t ==
      settled initial_cash (take (S i) (transactions s))) /\
  (forall t,
      last (transactions s) = Some t ->
      tPortfolio_Value t == settled initial_cash (transactions s)) /\
  (total_trades s = 0%nat ->
   forall t, t ∈ transactions s -> tPortfolio_Value t == initial_cash).
Proof.
  intros Hrun.
  pose proof (run_simulation_ledger_inv _ _ _ Hrun)
    as (_ & (Htot & _ & Hbuy) & _ & Hpv).
  split; [exact Hpv|]. split.
  - intros t Ht. rewrite last_lookup in Ht.
    rewrite (Hpv _ _ Ht).
    rewrite take_ge; [reflexivity|].
    apply lookup_lt_Some in Ht. lia.
  - intros H0 t (i & Hi)%list_elem_of_lookup.
    rewrite (Hpv _ _ Hi).
    assert (Hno : forall j : list Transaction,
               count_action Sell j = 0%nat -> settled initial_cash j == initial_cash).
    { intros j. induction j as [|u j IH] using rev_ind; [reflexivity|].
      rewrite count_action_snoc. unfold settled. rewrite foldl_snoc.
      destruct (tAction u); simpl; [|lia].
      intros H. apply IH. lia. }
    apply Hno.
    assert (Hle : (count_action Sell (take (S i) (transactions s))
                   <= count_action Sell (transactions s))%nat).
    { rewrite <- (take_drop (S i) (transactions s)) at 2.
      unfold count_action. rewrite List.filter_app, length_app. lia. }
    lia.
Qed.

Lemma journal_values_settled_witness :
  exists t,
    last (transactions debounce_final) = Some t /\
    tAction t = Buy /\
    tPortfolio_Value t == 1100.
Proof.
  destruct (journal_values_settled (prepare debounce_bars) 1000
              debounce_final eq_refl) as (_ & Hlast & _).
  eexists. split; [reflexivity|]. split; [reflexivity|].
  rewrite (Hlast _ eq_refl). reflexivity.
Defined.

(** ** The journal against the frame *)

Lemma date_unique (frame : DataFrame) (i j : nat) (r r' : Row) :
  StronglySorted Z.lt (index frame) ->
  frame !! i = Some r -> frame !! j = Some r' ->
  Date (bar r) = Date (bar r') -> i = j.
Proof.
  intros Hs Hi Hj Heq.
  destruct (lt_eq_lt_dec i j) as [[Hlt | ->] | Hlt]; [|reflexivity|].
  - pose proof (index_increasing frame i j r r' Hs Hlt Hi Hj). lia.
  - pose proof (index_increasing frame j i r' r Hs Hlt Hj Hi). lia.
Qed.

Lemma recorded_at_mono (frame : DataFrame) (lo hi hi' : nat) (t : Transaction) :
  (hi <= hi')%nat -> recorded_at frame lo hi t -> recorded_at frame lo hi' t.
Proof.
  intros Hle (i & r & Hi & H). exists i, r. split; [lia | exact H].
Qed.

Lemma trace_inv_snoc
  (frame : DataFrame) (start i : nat) (r0 : Row) (j : list Transaction)
  (t : Transaction) :
  StronglySorted Z.lt (index frame) ->
  (start <= i)%nat ->
  frame !! i = Some r0 ->
  tDate t = Date (bar r0) ->
  tPrice t = Close (bar r0) ->
  match tAction t with Buy => Buy_Condition r0 | Sell => Sell_Condition r0 end
  = true ->
  Forall (recorded_at frame start i) j ->
  StronglySorted Z.lt (tDate <$> j) ->
  Forall (recorded_at frame start (S i)) (j ++ [t]) /\
  StronglySorted Z.lt (tDate <$> (j ++ [t])).
Proof.
  intros Hs Hle Hi Hd Hp Hc Hall Hsorted. split.
  - apply Forall_app. split.
    + eapply Forall_impl; [exact Hall|]. intros u. apply recorded_at_mono. lia.
    + apply Forall_singleton. exists i, r0. repeat split; auto; lia.
  - rewrite fmap_app. apply StronglySorted_app. split; [|split].
    + intros x1 x2 (u & -> & Hu)%list_elem_of_fmap Hx2.
      apply list_elem_of_singleton in Hx2 as ->. simpl. rewrite Hd.
      rewrite Forall_forall in Hall.
      destruct (Hall u Hu) as (i' & r' & Hi' & Hr' & -> & _).
      apply (index_increasing frame i' i r' r0 Hs); auto. lia.
    + exact Hsorted.
    + repeat constructor.
Qed.

Lemma trace_inv_trade
  (frame : DataFrame) (start i : nat) (r : Row) (s : Sim) :
  StronglySorted Z.lt (index frame) ->
  data s !! i = Some r ->
  fixed <$> data s = fixed <$> frame ->
  trace_inv frame start i s ->
  trace_inv frame start (S i) (mark_value r (trade r s)).
Proof.
  intros Hs Hr Hfix (Hle & Hall & Hsorted).
  destruct (fixed_lookup _ _ _ _ Hfix Hr) as (r0 & Hr0 & [= Hbar Hb Hc]).
  unfold trace_inv. cbn [mark_value transactions].
  split; [lia|].
  apply (trade_cases r s
           (fun s' =>
              Forall (recorded_at frame start (S i)) (transactions s') /\
              StronglySorted Z.lt (tDate <$> transactions s'))).
  - intros Hbuy _ _. cbn [do_buy transactions].
    apply (trace_inv_snoc frame start i r0); simpl; auto; congruence.
  - intros Hsell _ _. cbn [do_sell transactions].
    apply (trace_inv_snoc frame start i r0); simpl; auto; congruence.
  - split; [|exact Hsorted].
    eapply Forall_impl; [exact Hall|]. intros u. apply recorded_at_mono. lia.
Qed.

Lemma run_simulation_trace (frame : DataFrame) (c : Q) (s : Sim) :
  StronglySorted Z.lt (index frame) ->
  run_simulation frame c = Ok s ->
  exists start,
    start_index frame = Ok (LocInt start) /\
    trace_inv frame start (start + (length frame - start)) s /\
    fixed <$> data s = fixed <$> frame.
Proof.
  intros Hs (start & Hstart & Hrun)%run_simulation_Ok.
  exists start. split; [exact Hstart|].
  apply (for_range_invariant_at frame (trace_inv frame start)) in Hrun; auto.
  - intros i r s0 Hr Hfix. apply trace_inv_trade; assumption.
  - repeat split; simpl; auto. constructor.
Qed.

(** X7: on a frame whose dates increase strictly, the records of the journal
    [run_simulation] returns are in strictly increasing order of date, so at
    most one per bar; each carries the date and the close price of a bar at
    or after the start index, and that bar's [Buy_Condition] holds for a Buy
    record, its [Sell_Condition] for a Sell record. *)
Theorem journal_follows_bars (frame : DataFrame) (initial_cash : Q) (s : Sim) :
  StronglySorted Z.lt (index frame) ->
  run_simulation frame initial_cash = Ok s ->
  exists start,
    start_index frame = Ok (LocInt start) /\
    StronglySorted Z.lt (tDate <$> transactions s) /\
    forall t,
      t ∈ transactions s ->
      exists i r,
        (start <= i)%nat /\ frame !! i = Some r /\
        tDate t = Date (bar r) /\ tPrice t = Close (bar r) /\
        match tAction t with
        | Buy => Buy_Condition r
        | Sell => Sell_Condition r
        end = true.
Proof.
  intros Hs Hrun.
  destruct (run_simulation_trace frame initial_cash s Hs Hrun)
    as (start & Hstart & (_ & Hall & Hsorted) & _).
  exists start. split; [exact Hstart|]. split; [exact Hsorted|].
  intros t Ht. rewrite Forall_forall in Hall.
  destruct (Hall t Ht) as (i & r & Hi & H). exists i, r. split; [lia|exact H].
Qed.

Lemma journal_follows_bars_witness :
  tDate <$> transactions debounce_final = [1; 4; 6]%Z /\
  StronglySorted Z.lt (tDate <$> transactions debounce_final).
Proof.
  split; [reflexivity|].
  destruct (journal_follows_bars (prepare debounce_bars) 1000 debounce_final)
    as (start & _ & Hsorted & _).
  - repeat constructor.
  - reflexivity.
  - exact Hsorted.
Defined.

(** ** The signal columns and the figure *)

Lemma row_marks_snoc (j : list Transaction) (t : Transaction) (r : Row) :
  tDate t <> Date (bar r) -> row_marks j r -> row_marks (j ++ [t]) r.
Proof.
  intros Hne [Hb Hs]. split; [rewrite Hb | rewrite Hs]; split.
  - intros (u & Hu & H). exists u. rewrite elem_of_app. auto.
  - intros (u & [Hu | ->%list_elem_of_singleton]%elem_of_app & Ha & Hd);
      [eauto | contradiction].
  - intros (u & Hu & H). exists u. rewrite elem_of_app. auto.
  - intros (u & [Hu | ->%list_elem_of_singleton]%elem_of_app & Ha & Hd);
      [eauto | contradiction].
Qed.

Lemma row_marks_buy (j : list Transaction) (t : Transaction) (r : Row) :
  tAction t = Buy -> tDate t = Date (bar r) ->
  row_marks j r -> row_marks (j ++ [t]) (set_Buy_Signal 1 r).
Proof.
  intros Ha Hd [_ Hs]. split; simpl.
  - split; [|reflexivity]. intros _. exists t.
    rewrite elem_of_app, list_elem_of_singleton. auto.
  - rewrite Hs. split.
    + intros (u & Hu & H). exists u. rewrite elem_of_app. auto.
    + intros (u & [Hu | ->%list_elem_of_singleton]%elem_of_app & Hu' & Hd');
        [eauto | congruence].
Qed.

Lemma row_marks_sell (j : list Transaction) (t : Transaction) (r : Row) :
  tAction t = Sell -> tDate t = Date (bar r) ->
  row_marks j r -> row_marks (j ++ [t]) (set_Sell_Signal 1 r).
Proof.
  intros Ha Hd [Hb _]. split; simpl.
  - rewrite Hb. split.
    + intros (u & Hu & H). exists u. rewrite elem_of_app. auto.
    + intros (u & [Hu | ->%list_elem_of_singleton]%elem_of_app & Hu' & Hd');
        [eauto | congruence].
  - split; [|reflexivity]. intros _. exists t.
    rewrite elem_of_app, list_elem_of_singleton. auto.
Qed.

Lemma Forall_at_set (P Q : Row -> Prop) (label : Z) (f : Row -> Row)
    (d : DataFrame) :
  (forall r, Date (bar r) = label -> P r -> Q (f r)) ->
  (forall r, Date (bar r) <> label -> P r -> Q r) ->
  Forall P d -> Forall Q (at_set label f d).
Proof.
  intros Hhit Hmiss Hall. unfold at_set. rewrite Forall_fmap.
  eapply Forall_impl; [exact Hall|]. intros r Hr. simpl.
  destruct (Z.eqb_spec (Date (bar r)) label); auto.
Qed.

Lemma marks_trade (r : Row) (s : Sim) :
  marks s -> marks (mark_value r (trade r s)).
Proof.
  intros Hm. unfold marks. cbn [mark_value transactions data].
  apply (Forall_at_set (row_marks (transactions (trade r s))));
    [intros r' _ H; exact H | intros r' _ H; exact H |].
  apply (trade_cases r s (fun s' => Forall (row_marks (transactions s')) (data s')));
    [| |exact Hm]; intros _ _ _; cbn [do_buy do_sell transactions data].
  - apply (Forall_at_set (row_marks (transactions s))); [| |exact Hm].
    + intros r' Hd. apply row_marks_buy; simpl; auto.
    + intros r' Hd. apply row_marks_snoc. simpl. congruence.
  - apply (Forall_at_set (row_marks (transactions s))); [| |exact Hm].
    + intros r' Hd. apply row_marks_sell; simpl; auto.
    + intros r' Hd. apply row_marks_snoc. simpl. congruence.
Qed.

Lemma marks_init (bars : list Bar) (c : Q) : marks (init (prepare bars) c).
Proof.
  unfold marks, prepare, evaluate_signals, initialize_columns. simpl.
  rewrite !Forall_fmap. apply Forall_true. intros b.
  split; simpl; (split; [discriminate|]);
    intros (t & Ht & _); inversion Ht.
Qed.

Lemma run_simulation_marks (bars : list Bar) (c : Q) (s : Sim) :
  run_simulation (prepare bars) c = Ok s -> marks s.
Proof.
  intros (start & _ & Hrun)%run_simulation_Ok.
  apply (for_range_invariant (prepare bars) (fun _ => True) marks)
    in Hrun as [H _]; auto using marks_init.
  - apply Forall_true. auto.
  - intros r s0 _. apply marks_trade.
Qed.

Lemma scatter_elem (P : Row -> Prop) `{!forall r, Decision (P r)}
    (d : DataFrame) (x : Z) (p : Q) :
  (x, p) ∈ point <$> filter P d <->
  exists r, r ∈ d /\ P r /\ Date (bar r) = x /\ Close (bar r) = p.
Proof.
  rewrite list_elem_of_fmap. split.
  - intros (r & [= -> ->] & [HP Hr]%list_elem_of_filter). eauto.
  - intros (r & Hr & HP & <- & <-). exists r.
    split; [reflexivity|]. apply list_elem_of_filter. auto.
Qed.

(** X8: for a run on prepared bars whose dates increase strictly, the
    points [plot_signals] scatters as buy signals are the (date, price)
    pairs of the Buy records of the journal, and the points it scatters as
    sell signals are those of the Sell records: every record is marked on
    the figure and nothing else is. *)
Theorem figure_shows_journal (bars : list Bar) (initial_cash : Q) (s : Sim) :
  StronglySorted Z.lt (Date <$> bars) ->
  run_simulation (prepare bars) initial_cash = Ok s ->
  forall (a : Action) (x : Z) (p : Q),
    (x, p) ∈ match a with
              | Buy => buy_scatter (plot_signals (data s))
              | Sell => sell_scatter (plot_signals (data s))
              end <->
    exists t, t ∈ transactions s /\
              tAction t = a /\ tDate t = x /\ tPrice t = p.
Proof.
  intros Hs Hrun a x p. rewrite <- index_prepare in Hs.
  pose proof (run_simulation_marks bars initial_cash s Hrun) as Hm.
  destruct (run_simulation_trace _ _ _ Hs Hrun)
    as (start & _ & (_ & Hall & _) & Hfix).
  unfold marks in Hm. rewrite Forall_forall in Hm. rewrite Forall_forall in Hall.
  assert (Hrow : forall r,
             r ∈ data s ->
             forall t, t ∈ transactions s -> tDate t = Date (bar r) ->
                       tPrice t = Close (bar r)).
  { intros r (i & Hi)%list_elem_of_lookup t Ht Hd.
    destruct (fixed_lookup _ _ _ _ Hfix Hi) as (r0 & Hr0 & [= Hbar _ _]).
    destruct (Hall t Ht) as (i' & r' & _ & Hr' & Hd' & Hp' & _).
    assert (i' = i).
    { apply (date_unique (prepare bars) i' i r' r0 Hs Hr' Hr0). congruence. }
    subst i'. congruence. }
  assert (Hback : forall t,
             t ∈ transactions s ->
             exists r, r ∈ data s /\ Date (bar r) = tDate t /\
                       Close (bar r) = tPrice t).
  { intros t Ht.
    destruct (Hall t Ht) as (i & r0 & _ & Hr0 & Hd & Hp & _).
    destruct (lookup_lt_is_Some_2 (data s) i) as [r Hr].
    { rewrite (fixed_length _ _ Hfix). apply (lookup_lt_Some _ _ _ Hr0). }
    destruct (fixed_lookup _ _ _ _ Hfix Hr) as (r1 & Hr1 & [= Hbar _ _]).
    exists r. split; [apply list_elem_of_lookup; eauto|].
    split; congruence. }
  destruct a; simpl; rewrite scatter_elem; split.
  - intros (r & Hr & Hsig & <- & <-).
    apply (Hm r Hr) in Hsig as (t & Ht & Ha & Hd).
    exists t. repeat split; auto.
  - intros (t & Ht & Ha & <- & <-).
    destruct (Hback t Ht) as (r & Hr & Hd & Hp).
    exists r. repeat split; auto. apply (Hm r Hr). eauto.
  - intros (r & Hr & Hsig & <- & <-).
    apply (Hm r Hr) in Hsig as (t & Ht & Ha & Hd).
    exists t. repeat split; auto.
  - intros (t & Ht & Ha & <- & <-).
    destruct (Hback t Ht) as (r & Hr & Hd & Hp).
    exists r. repeat split; auto. apply (Hm r Hr). eauto.
Qed.

Lemma figure_shows_journal_witness :
  buy_scatter (plot_signals (data debounce_final)) = [(1%Z, 100); (6%Z, 105)] /\
  exists t, t ∈ transactions debounce_final /\
            tAction t = Buy /\ tDate t = 6%Z /\ tPrice t = 105.
Proof.
  split; [reflexivity|].
  apply (figure_shows_journal debounce_bars 1000 debounce_final
           ltac:(repeat constructor) eq_refl Buy 6%Z 105).
  simpl. apply list_elem_of_further, list_elem_of_here.
Defined.

(** ** The Portfolio_Value column *)

Lemma index_fixed (d frame : DataFrame) :
  fixed <$> d = fixed <$> frame -> index d = index frame.
Proof.
  intros H. unfold index.
  change (fun r : Row => Date (bar r))
    with ((fun x : Bar * bool * bool => Date x.1.1) ∘ fixed).
  rewrite !list_fmap_compose, H. reflexivity.
Qed.

(** With dates that increase strictly, [data.at[label, col] = v] writes one
    row. *)
Lemma at_set_sorted (label : Z) (f : Row -> Row) (d : DataFrame)
    (i : nat) (r : Row) :
  StronglySorted Z.lt (index d) ->
  d !! i = Some r ->
  Date (bar r) = label ->
  at_set label f d !! i = Some (f r) /\
  forall j, j <> i -> at_set label f d !! j = d !! j.
Proof.
  intros Hs Hi Hd. unfold at_set. split.
  - rewrite list_lookup_fmap, Hi. simpl. rewrite <- Hd, Z.eqb_refl. reflexivity.
  - intros j Hne. rewrite list_lookup_fmap.
    destruct (d !! j) as [r'|] eqn:Hj; simpl; [|reflexivity].
    destruct (Z.eqb_spec (Date (bar r')) label) as [Heq|]; [|reflexivity].
    exfalso. apply Hne. apply (date_unique d j i r' r Hs Hj Hi). congruence.
Qed.

(** One turn of the loop writes to the row it processes, and leaves there
    the value of the portfolio. *)
Lemma body_rows (i : nat) (r : Row) (s : Sim) :
  StronglySorted Z.lt (index (data s)) ->
  data s !! i = Some r ->
  let s' := mark_value r (trade r s) in
  (exists r', data s' !! i = Some r' /\ bar r' = bar r /\
              Portfolio_Value r' = equity s' r') /\
  forall j, j <> i -> data s' !! j = data s !! j.
Proof.
  intros Hs Hi s'.
  assert (Ht : exists rt,
             data (trade r s) !! i = Some rt /\ bar rt = bar r /\
             forall j, j <> i -> data (trade r s) !! j = data s !! j).
  { apply (trade_cases r s
             (fun s1 => exists rt,
                  data s1 !! i = Some rt /\ bar rt = bar r /\
                  forall j, j <> i -> data s1 !! j = data s !! j)).
    - intros _ _ _. cbn [do_buy data].
      destruct (at_set_sorted (Date (bar r)) (set_Buy_Signal 1) (data s) i r
                  Hs Hi eq_refl) as [H1 H2].
      eexists. split; [exact H1|]. split; [reflexivity | exact H2].
    - intros _ _ _. cbn [do_sell data].
      destruct (at_set_sorted (Date (bar r)) (set_Sell_Signal 1) (data s) i r
                  Hs Hi eq_refl) as [H1 H2].
      eexists. split; [exact H1|]. split; [reflexivity | exact H2].
    - exists r. auto. }
  destruct Ht as (rt & Hrt & Hbar & Hother).
  assert (Hs' : StronglySorted Z.lt (index (data (trade r s)))).
  { rewrite (index_fixed _ (data s)); [exact Hs | apply trade_fixed]. }
  destruct (at_set_sorted (Date (bar r))
              (set_Portfolio_Value (equity (trade r s) r))
              (data (trade r s)) i rt Hs' Hrt) as [H1 H2];
    [congruence|].
  split.
  - eexists. split; [exact H1|]. split; [exact Hbar|].
    unfold equity. simpl. rewrite Hbar. reflexivity.
  - intros j Hne. unfold s'. cbn [mark_value data].
    fold (equity (trade r s) r). rewrite (H2 j Hne). auto.
Qed.

Lemma curve_inv_trade (frame : DataFrame) (c : Q) (start i : nat)
    (r : Row) (s : Sim) :
  StronglySorted Z.lt (index frame) ->
  data s !! i = Some r ->
  fixed <$> data s = fixed <$> frame ->
  curve_inv frame c start i s ->
  curve_inv frame c start (S i) (mark_value r (trade r s)).
Proof.
  intros Hs Hr Hfix (Hle & Hrun & Hkeep & Hcurve).
  assert (Hsd : StronglySorted Z.lt (index (data s)))
    by (rewrite (index_fixed _ _ Hfix); exact Hs).
  destruct (body_rows i r s Hsd Hr) as [(r' & Hr' & Hbar & Hpv) Hother].
  assert (Hnext : for_range start (S (i - start)) (init frame c)
                  = Ok (mark_value r (trade r s))).
  { replace (S (i - start)) with (i - start + 1)%nat by lia.
    rewrite for_range_add, Hrun. simpl.
    replace (start + (i - start))%nat with i by lia.
    rewrite (body_lookup i s r Hr). reflexivity. }
  split; [lia|]. split; [|split].
  - replace (S i - start)%nat with (S (i - start)) by lia. exact Hnext.
  - intros j Hj. rewrite Hother by lia. apply Hkeep. lia.
  - intros k r1 Hk Hr1.
    destruct (decide (start + k = i)%nat) as [Heq|Hne].
    + rewrite Heq in Hr1. rewrite Hr' in Hr1. injection Hr1 as <-.
      exists (mark_value r (trade r s)). split; [|exact Hpv].
      replace k with (i - start)%nat by lia. exact Hnext.
    + rewrite Hother in Hr1 by lia. apply Hcurve; [lia | exact Hr1].
Qed.

(** X9: for a run on a frame whose dates increase strictly, in the frame
    returned each row from the start index on holds in [Portfolio_Value] the
    cash plus the quantity times the close of that row, as they stand once
    that row's bar is processed; the rows before the start index are as they
    were given. *)
Theorem portfolio_value_column (frame : DataFrame) (initial_cash : Q) (s : Sim) :
  StronglySorted Z.lt (index frame) ->
  run_simulation frame initial_cash = Ok s ->
  exists start,
    start_index frame = Ok (LocInt start) /\
    (forall j, (j < start)%nat -> data s !! j = frame !! j) /\
    forall k r,
      data s !! (start + k)%nat = Some r ->
      exists sk,
        simulation_after frame initial_cash (S k) = Ok sk /\
        Portfolio_Value r =
        cash sk + inject_Z (stock_quantity sk) * Close (bar r).
Proof.
  intros Hs Hrun.
  destruct (run_simulation_Ok _ _ _ Hrun) as (start & Hstart & Hloop).
  exists start. split; [exact Hstart|].
  apply (for_range_invariant_at frame (curve_inv frame initial_cash start))
    in Hloop as [(_ & _ & Hkeep & Hcurve) Hfix]; auto.
  - split; [intros j Hj; apply Hkeep; lia|].
    intros k r Hr.
    assert (Hlt : (start + k < length frame)%nat).
    { rewrite <- (fixed_length _ _ Hfix). apply (lookup_lt_Some _ _ _ Hr). }
    destruct (Hcurve k r) as (sk & Hsk & Hpv); [lia | exact Hr|].
    exists sk. split; [|exact Hpv].
    unfold simulation_after. rewrite Hstart. cbn [bind range_start].
    rewrite Nat.min_l by lia. exact Hsk.
  - intros i r s0 Hr Hfix. apply curve_inv_trade; assumption.
  - split; [lia|]. split; [|split].
    + rewrite Nat.sub_diag. reflexivity.
    + reflexivity.
    + intros k r Hk. lia.
Qed.

Lemma portfolio_value_column_witness :
  exists r sk,
    data debounce_final !! 1%nat = Some r /\
    simulation_after (prepare debounce_bars) 1000 2 = Ok sk /\
    Portfolio_Value r =
    cash sk + inject_Z (stock_quantity sk) * Close (bar r) /\
    Portfolio_Value r == 1010.
Proof.
  destruct (portfolio_value_column (prepare debounce_bars) 1000 debounce_final)
    as (start & Hstart & _ & Hcurve).
  - repeat constructor.
  - reflexivity.
  - assert (start = 0%nat) as -> by (vm_compute in Hstart; congruence).
    eexists.
    edestruct (Hcurve 1%nat) as (sk & Hsk & Hpv); [reflexivity|].
    exists sk. split; [reflexivity|]. split; [exact Hsk|].
    split; [exact Hpv | reflexivity].
Defined.

(** * main *)

(** ** Dictionaries *)

Lemma dict_set_keys {V W : Type} (k : string) (v : V) (w : W)
    (d : list (string * V)) (e : list (string * W)) :
  d.*1 = e.*1 -> (dict_set k v d).*1 = (dict_set k w e).*1.
Proof.
  revert e. induction d as [|[k1 v1] d IH]; intros [|[k2 w2] e] H;
    try discriminate H; simpl; [reflexivity|].
  injection H as -> H.
  destruct (String.eqb k2 k); simpl; f_equal; auto.
Qed.

Lemma dict_set_Forall {V : Type} (P : string * V -> Prop) (k : string) (v : V)
    (d : list (string * V)) :
  P (k, v) -> Forall P d -> Forall P (dict_set k v d).
Proof.
  intros Hv. induction d as [|[k1 v1] d IH]; intros H; simpl.
  - repeat constructor. exact Hv.
  - apply Forall_cons in H as [H1 H].
    destruct (String.eqb_spec k1 k) as [->|]; auto.
Qed.

Lemma dict_set_key_elem {V : Type} (k k' : string) (v : V)
    (d : list (string * V)) :
  k' ∈ (dict_set k v d).*1 -> k' = k \/ k' ∈ d.*1.
Proof.
  induction d as [|[k1 v1] d IH]; simpl.
  - intros ->%list_elem_of_singleton. auto.
  - destruct (String.eqb k1 k); simpl; [auto|].
    intros [->|H]%elem_of_cons; [right; left|].
    destruct (IH H); [auto | right; right; assumption].
Qed.

(** ** One ticker *)

(** The ways through one turn of the loop of [main]. *)
Lemma process_ticker_cases (market : string -> result (list Bar))
    (acc : Totals) (ticker : string) (P : Totals -> Prop) :
  P acc ->
  (forall bars s,
      market ticker = Ok bars ->
      run_simulation (prepare bars) 100000 = Ok s ->
      transactions s = [] ->
      P (add_trades s acc)) ->
  (forall bars s t0 tn,
      market ticker = Ok bars ->
      run_simulation (prepare bars) 100000 = Ok s ->
      head (transactions s) = Some t0 ->
      last (transactions s) = Some tn ->
      P (register ticker s t0 tn (add_trades s acc))) ->
  P (process_ticker market acc ticker).
Proof.
  intros Hskip Hempty Hreg. unfold process_ticker.
  destruct (market ticker) as [[|b bars]|e] eqn:Hm; auto.
  destruct (run_simulation (prepare (b :: bars)) 100000) as [s|e] eqn:Hrun;
    auto.
  destruct (head (transactions s)) as [t0|] eqn:Hh.
  - destruct (last (transactions s)) as [tn|] eqn:Hl; [eauto|].
    apply last_None in Hl. rewrite Hl in Hh. discriminate Hh.
  - apply (Hempty (b :: bars) s); auto.
    destruct (transactions s); [reflexivity | discriminate Hh].
Qed.

Lemma add_trades_nothing (s : Sim) (acc : Totals) :
  total_trades s = 0%nat -> successful_trades s = 0%nat ->
  add_trades s acc = acc.
Proof.
  intros Ht Hs. unfold add_trades. rewrite Ht, Hs, !Nat.add_0_r.
  destruct acc; reflexivity.
Qed.

Lemma empty_journal_no_trade (frame : DataFrame) (c : Q) (s : Sim) :
  run_simulation frame c = Ok s ->
  transactions s = [] ->
  total_trades s = 0%nat /\ successful_trades s = 0%nat.
Proof.
  intros (_ & (Htot & Hle & _) & _)%run_simulation_ledger_inv Hj.
  rewrite Hj in Htot. unfold count_action in Htot. simpl in Htot. lia.
Qed.

Lemma foldl_process_ticker_inv (market : string -> result (list Bar))
    (P : Totals -> Prop) (tickers : list string) (acc : Totals) :
  (forall acc ticker, ticker ∈ tickers -> P acc ->
                      P (process_ticker market acc ticker)) ->
  P acc -> P (foldl (process_ticker market) acc tickers).
Proof.
  revert acc. induction tickers as [|t tickers IH]; intros acc Hstep Hacc;
    simpl; [exact Hacc|].
  apply IH.
  - intros acc' t' Ht'. apply Hstep. right. exact Ht'.
  - apply Hstep; [left | exact Hacc].
Qed.

Lemma no_signal_run (bars : list Bar) (c : Q) (s : Sim) :
  Forall (fun b => ~ all_defined b) bars ->
  run_simulation (prepare bars) c = Ok s ->
  nothing_recorded s.
Proof.
  intros Hnone (start & _ & Hrun)%run_simulation_Ok.
  apply (for_range_invariant (prepare bars)
           (fun r => Buy_Condition r = false /\ Sell_Condition r = false)
           nothing_recorded) in Hrun as [H _]; auto.
  - intros r r0 [Hb0 Hs0] [= _ Hb1 Hs1]. split; congruence.
  - apply prepare_no_signal, Hnone.
  - intros r s0. apply nothing_recorded_trade.
  - repeat split.
Qed.

(** X10: a ticker whose download raises or is empty, or whose bars never
    have the four indicators defined together (too short a history), changes
    none of the accumulators of [main]: no entry in a dictionary, no trade
    counted, nothing added to the portfolio value. *)
Theorem ticker_skipped (market : string -> result (list Bar))
    (acc : Totals) (ticker : string) :
  (exists e, market ticker = Raise e) \/
  (exists bars, market ticker = Ok bars /\
                Forall (fun b => ~ all_defined b) bars) ->
  process_ticker market acc ticker = acc.
Proof.
  intros H.
  apply (process_ticker_cases market acc ticker (fun acc' => acc' = acc)).
  - reflexivity.
  - intros bars s _ Hrun Hj.
    destruct (empty_journal_no_trade _ _ _ Hrun Hj).
    apply add_trades_nothing; assumption.
  - intros bars s t0 tn Hm Hrun Hh _. exfalso.
    destruct H as [[e He] | (bars' & Hm' & Hnone)]; [congruence|].
    rewrite Hm in Hm'. injection Hm' as <-.
    destruct (no_signal_run bars 100000 s Hnone Hrun) as (Hj & _).
    rewrite Hj in Hh. discriminate Hh.
Qed.

Lemma ticker_skipped_witness :
  let market := fun _ : string => Ok short_bars in
  process_ticker market no_totals "AAA" = no_totals.
Proof.
  intros market. apply ticker_skipped. right. exists short_bars.
  split; [reflexivity|].
  repeat constructor; intros (_ & _ & [x Hx] & _); discriminate Hx.
Defined.

(** ** The whole of main *)

Lemma run_simulation_journal_inv (frame : DataFrame) (c : Q) (s : Sim) :
  run_simulation frame c = Ok s -> journal_inv s.
Proof.
  rewrite <- simulation_after_all. apply simulation_after_journal_inv.
Qed.

Lemma totals_inv_process (market : string -> result (list Bar))
    (acc : Totals) (ticker : string) :
  totals_inv acc -> totals_inv (process_ticker market acc ticker).
Proof.
  intros (Hle & Hk1 & Hk2 & Hall).
  apply process_ticker_cases.
  - repeat split; assumption.
  - intros bars s _ Hrun _.
    pose proof (run_simulation_ledger_inv _ _ _ Hrun) as (_ & (_ & Hs & _) & _).
    repeat split; simpl; auto. lia.
  - intros bars s t0 tn _ Hrun Hh _.
    pose proof (run_simulation_ledger_inv _ _ _ Hrun) as (_ & (_ & Hs & _) & _).
    pose proof (run_simulation_journal_inv _ _ _ Hrun) as (_ & Halt & Hfirst).
    repeat split; simpl.
    + lia.
    + apply dict_set_keys, Hk1.
    + apply dict_set_keys, Hk2.
    + apply dict_set_Forall; [|exact Hall]. simpl. split; [|exact Halt].
      exists t0. split; [exact Hh|].
      destruct (transactions s); [discriminate Hh|].
      injection Hh as <-. exact Hfirst.
Qed.

Lemma main_Done (market : string -> result (list Bar)) (tickers : list string)
    (rep : Report) :
  main market tickers = Done rep ->
  tickers <> [] /\
  totals rep = foldl (process_ticker market) no_totals tickers /\
  total_return_percent rep =
    (total_portfolio_value (totals rep)
     - inject_Z (100000 * Z.of_nat (length tickers)))
    / inject_Z (100000 * Z.of_nat (length tickers)) * 100 /\
  success_rate rep =
    if (0 <? total_trades_all (totals rep))%nat
    then inject_Z (Z.of_nat (successful_trades_all (totals rep)))
         / inject_Z (Z.of_nat (total_trades_all (totals rep))) * 100
    else 0.
Proof.
  unfold main.
  destruct (100000 * Z.of_nat (length tickers) =? 0)%Z eqn:E; [discriminate|].
  intros [= <-]. simpl. repeat split.
  intros ->. discriminate E.
Qed.

(** X11: [main] ends in a [ZeroDivisionError], at the total return of line
    153, exactly when the list of tickers is empty; with at least one ticker
    it returns its report whatever the downloads and the runs raise. *)
Theorem main_raises_without_tickers
    (market : string -> result (list Bar)) (tickers : list string) :
  (main market tickers = ZeroDivisionError <-> tickers = []) /\
  (tickers <> [] -> exists rep, main market tickers = Done rep).
Proof.
  assert (H : tickers = [] \/ (100000 * Z.of_nat (length tickers) =? 0)%Z = false).
  { destruct tickers; [left; reflexivity | right]. apply Z.eqb_neq.
    simpl length. lia. }
  split; [split|].
  - destruct H as [H|H]; [auto|]. unfold main. rewrite H. discriminate.
  - intros ->. reflexivity.
  - intros Hne. destruct H as [H|H]; [contradiction|].
    unfold main. rewrite H. eauto.
Qed.

(** X12: the success rate [main] reports lies between 0 and 100, and is 0
    when no trade was completed: over all tickers the successful trades do
    not outnumber the trades. *)
Theorem success_rate_bounds
    (market : string -> result (list Bar)) (tickers : list string)
    (rep : Report) :
  main market tickers = Done rep ->
  0 <= success_rate rep /\ success_rate rep <= 100 /\
  (total_trades_all (totals rep) = 0%nat -> success_rate rep = 0).
Proof.
  intros (_ & Htot & _ & ->)%main_Done.
  assert (Hinv : totals_inv (totals rep)).
  { rewrite Htot. apply foldl_process_ticker_inv.
    - intros acc t _. apply totals_inv_process.
    - repeat split; simpl; auto. }
  destruct Hinv as (Hle & _).
  destruct (Nat.ltb_spec 0 (total_trades_all (totals rep))) as [Hpos|Hzero].
  - assert (Hb : 0 < inject_Z (Z.of_nat (total_trades_all (totals rep)))).
    { change 0 with (inject_Z 0). rewrite <- Zlt_Qlt. lia. }
    assert (Ha : 0 <= inject_Z (Z.of_nat (successful_trades_all (totals rep)))).
    { change 0 with (inject_Z 0). rewrite <- Zle_Qle. lia. }
    assert (Hab : inject_Z (Z.of_nat (successful_trades_all (totals rep)))
                  <= inject_Z (Z.of_nat (total_trades_all (totals rep)))).
    { rewrite <- Zle_Qle. lia. }
    assert (H0 : 0 <= inject_Z (Z.of_nat (successful_trades_all (totals rep)))
                      / inject_Z (Z.of_nat (total_trades_all (totals rep)))).
    { apply Qle_shift_div_l; [exact Hb|]. rewrite Qmult_0_l. exact Ha. }
    assert (H1 : inject_Z (Z.of_nat (successful_trades_all (totals rep)))
                 / inject_Z (Z.of_nat (total_trades_all (totals rep))) <= 1).
    { apply Qle_shift_div_r; [exact Hb|]. rewrite Qmult_1_l. exact Hab. }
    split; [lra|]. split; [lra|]. lia.
  - split; [apply Qle_refl|]. split; [discriminate | reflexivity].
Qed.

(** X13: in the report of [main] the three dictionaries have the same keys
    in the same order; every key is a ticker of the list, and the journal
    kept under it (and written to its CSV file) is the journal of the run on
    that ticker's bars: it is not empty, starts with a Buy, and never
    repeats an action. *)
Theorem main_keeps_journals
    (market : string -> result (list Bar)) (tickers : list string)
    (rep : Report) :
  main market tickers = Done rep ->
  (individual_stock_return (totals rep)).*1 = (transactions_dict (totals rep)).*1 /\
  (graphs (totals rep)).*1 = (transactions_dict (totals rep)).*1 /\
  Forall (fun kv => from_market market tickers kv /\ kept_journal kv.2)
         (transactions_dict (totals rep)).
Proof.
  intros (_ & Htot & _)%main_Done. rewrite Htot.
  assert (Hinv : totals_inv (foldl (process_ticker market) no_totals tickers)).
  { apply foldl_process_ticker_inv.
    - intros acc t _. apply totals_inv_process.
    - repeat split; simpl; auto. }
  destruct Hinv as (_ & Hk1 & Hk2 & Hkept).
  split; [exact Hk1|]. split; [exact Hk2|].
  apply Forall_and. split; [|exact Hkept].
  apply (foldl_process_ticker_inv market
           (fun acc => Forall (from_market market tickers) (transactions_dict acc))).
  - intros acc t Ht Hacc. apply process_ticker_cases; auto.
    intros bars s t0 tn Hm Hrun _ _. simpl.
    apply dict_set_Forall; [|exact Hacc].
    split; [exact Ht|]. exists bars, s. auto.
  - constructor.
Qed.

Lemma success_rate_bounds_witness :
  main example_market ["AAA"; "BBB"; "CCC"] = Done example_report /\
  total_trades_all (totals example_report) = 1%nat /\
  success_rate example_report == 100 /\
  0 <= success_rate example_report /\ success_rate example_report <= 100.
Proof.
  split; [reflexivity|]. split; [reflexivity|]. split; [reflexivity|].
  destruct (success_rate_bounds example_market ["AAA"; "BBB"; "CCC"]
              example_report eq_refl) as (H0 & H1 & _).
  split; assumption.
Defined.

Lemma main_keeps_journals_witness :
  (transactions_dict (totals example_report)).*1 = ["AAA"] /\
  (individual_stock_return (totals example_report)).*1
  = (transactions_dict (totals example_report)).*1 /\
  Forall (fun kv => kept_journal kv.2)
         (transactions_dict (totals example_report)).
Proof.
  destruct (main_keeps_journals example_market ["AAA"; "BBB"; "CCC"]
              example_report eq_refl) as (Hk & _ & Hall).
  split; [reflexivity|]. split; [exact Hk|].
  apply Forall_and in Hall as [_ H]. exact H.
Defined.

(** ** The value main reports *)

Lemma value_inv_trade (r : Row) (s : Sim) :
  0 < Close (bar r) -> value_inv s -> value_inv (mark_value r (trade r s)).
Proof.
  intros Hp [Hnn Hall].
  pose proof (nonnegative_trade r s Hp Hnn) as Hnn'.
  split; [exact Hnn'|]. revert Hnn'.
  unfold nonnegative. cbn [mark_value transactions cash stock_quantity].
  apply (trade_cases r s
           (fun s' =>
              0 <= cash s' /\ (0 <= stock_quantity s')%Z ->
              Forall (fun t => 0 <= tPortfolio_Value t) (transactions s')));
    [| |auto].
  - intros _ _ _. cbn [do_buy transactions cash stock_quantity].
    intros [Hc Hq]. apply Forall_app. split; [exact Hall|].
    apply Forall_singleton. simpl.
    rewrite <- (Qplus_0_l 0). apply Qplus_le_compat; [exact Hc|].
    apply Qmult_le_0_compat; [|apply Qlt_le_weak, Hp].
    change 0 with (inject_Z 0). rewrite <- Zle_Qle. exact Hq.
  - intros _ _ _. cbn [do_sell transactions cash stock_quantity].
    intros [Hc _]. apply Forall_app. split; [exact Hall|].
    apply Forall_singleton. simpl. exact Hc.
Qed.

Lemma run_simulation_value_inv (bars : list Bar) (c : Q) (s : Sim) :
  Forall (fun b => 0 < Close b) bars ->
  0 <= c ->
  run_simulation (prepare bars) c = Ok s ->
  value_inv s.
Proof.
  intros Hpos Hc (start & _ & Hrun)%run_simulation_Ok.
  apply (for_range_invariant (prepare bars) (fun r => 0 < Close (bar r))
           value_inv) in Hrun as [H _]; auto.
  - intros r r0 H0 [= Hbar _ _]. rewrite <- Hbar. exact H0.
  - apply (Forall_prepare (fun b => 0 < Close b)), Hpos.
  - intros r s0. apply value_inv_trade.
  - split; [split; simpl; [exact Hc | lia] | constructor].
Qed.

(** X14: when every close price the market gives is positive, the total
    portfolio value [main] reports is non-negative and the total return it
    reports is at least -100 percent.  The return is taken on 100000 per
    ticker of the list, skipped tickers included. *)
Theorem total_return_bounded_below
    (market : string -> result (list Bar)) (tickers : list string)
    (rep : Report) :
  (forall ticker bars,
      market ticker = Ok bars -> Forall (fun b => 0 < Close b) bars) ->
  main market tickers = Done rep ->
  0 <= total_portfolio_value (totals rep) /\
  -100 <= total_return_percent rep.
Proof.
  intros Hpos (Hne & Htot & -> & _)%main_Done.
  assert (Hv : 0 <= total_portfolio_value (totals rep)).
  { rewrite Htot.
    apply (foldl_process_ticker_inv market
             (fun acc => 0 <= total_portfolio_value acc)).
    - intros acc t _ Hacc. apply process_ticker_cases; auto.
      intros bars s t0 tn Hm Hrun _ Hl. simpl.
      rewrite <- (Qplus_0_l 0). apply Qplus_le_compat; [exact Hacc|].
      destruct (run_simulation_value_inv bars 100000 s (Hpos t bars Hm))
        as [_ Hall]; [discriminate | exact Hrun |].
      rewrite Forall_forall in Hall. apply Hall.
      apply last_Some_elem_of, Hl.
    - apply Qle_refl. }
  split; [exact Hv|].
  assert (Hb : 0 < inject_Z (100000 * Z.of_nat (length tickers))).
  { change 0 with (inject_Z 0). rewrite <- Zlt_Qlt.
    destruct tickers; [contradiction | simpl length; lia]. }
  assert (H1 : -1 <= (total_portfolio_value (totals rep)
                      - inject_Z (100000 * Z.of_nat (length tickers)))
                     / inject_Z (100000 * Z.of_nat (length tickers))).
  { apply Qle_shift_div_l; [exact Hb|]. lra. }
  lra.
Qed.

Lemma total_return_bounded_below_witness :
  total_portfolio_value (totals example_report) == 110000 /\
  total_return_percent example_report == -190 / 3 /\
  -100 <= total_return_percent example_report.
Proof.
  split; [reflexivity|]. split; [reflexivity|].
  apply (total_return_bounded_below example_market ["AAA"; "BBB"; "CCC"]
           example_report); [|reflexivity].
  intros ticker bars. unfold example_market.
  destruct (String.eqb ticker "AAA"); [|destruct (String.eqb ticker "BBB")];
    intros [= <-]; repeat constructor.
Defined.

Lemma main_raises_without_tickers_witness :
  main example_market [] = ZeroDivisionError /\
  exists rep, main example_market ["CCC"] = Done rep.
Proof.
  split.
  - apply (proj1 (main_raises_without_tickers example_market [])). reflexivity.
  - apply (proj2 (main_raises_without_tickers example_market ["CCC"])).
    discriminate.
Defined.
